(** * Channel-name resolution and CT-window normalization (nnunetv2)

    A shallow embedding of
    [nnunetv2/preprocessing/normalization/map_channel_name_to_normalization.py]
    and
    [nnunetv2/preprocessing/normalization/custom_normalization_schemes.py].

    Conventions of the embedding.
    - A Python [str] is the list of its Unicode code points.
    - A Python [int] is a [Z] (no bound on its size).
    - A class object carries an identity; [type(...)] allocates a fresh one.
    - The module-level dict [_dynamic_normalization_classes] is part of an
      explicit interpreter state threaded through every call.
    - A numpy array lives in a heap and is addressed by a location; its
      elements are exact rationals, so the rounding of float32/float64
      arithmetic is idealised away. *)

From Stdlib Require Import ZArith NArith QArith Qminmax List String Ascii.
From Stdlib Require Import Decimal DecimalPos DecimalN DecimalZ Lia.
From stdpp Require Import base option list gmap.

Local Open Scope Z_scope.

(** ** Python strings *)

(** A literal of the source, given as an ASCII Rocq string. *)
Definition py (s : String.string) : list N :=
  List.map N_of_ascii (list_ascii_of_string s).

(** [s.startswith(p)], returning what follows the prefix. *)
Fixpoint strip_prefix (p s : list N) : option (list N) :=
  match p, s with
  | [], _ => Some s
  | a :: p', b :: s' => if N.eqb a b then strip_prefix p' s' else None
  | _ :: _, [] => None
  end.

(** [str(n)] for a Python int: decimal digits, ['-'] in front of a
    negative number. *)
Fixpoint uint_chars (d : Decimal.uint) : list N :=
  match d with
  | Nil => []
  | D0 d => 48%N :: uint_chars d
  | D1 d => 49%N :: uint_chars d
  | D2 d => 50%N :: uint_chars d
  | D3 d => 51%N :: uint_chars d
  | D4 d => 52%N :: uint_chars d
  | D5 d => 53%N :: uint_chars d
  | D6 d => 54%N :: uint_chars d
  | D7 d => 55%N :: uint_chars d
  | D8 d => 56%N :: uint_chars d
  | D9 d => 57%N :: uint_chars d
  end.

Definition str (z : Z) : list N :=
  match Z.to_int z with
  | Decimal.Pos d => uint_chars d
  | Decimal.Neg d => 45%N :: uint_chars d
  end.

(** ** Exceptions and the state-and-exception monad *)

Inductive exn : Type :=
  | ValueError (msg : list N)
  | AssertionError (msg : list N)
  | NoSuchObject.
  (* [NoSuchObject]: a location outside the heap. Python has no dangling
     references; the case only makes the heap operations total. *)

Inductive result (A : Type) : Type :=
  | Ok (a : A)
  | Raise (e : exn).
Arguments Ok {A} a.
Arguments Raise {A} e.

Definition M (S A : Type) : Type := S → result A * S.

Definition ret {S A} (a : A) : M S A := λ s, (Ok a, s).

Definition bind {S A B} (m : M S A) (k : A → M S B) : M S B :=
  λ s, match m s with
       | (Ok a, s') => k a s'
       | (Raise e, s') => (Raise e, s')
       end.

Definition raise {S A} (e : exn) : M S A := λ s, (Raise e, s).

Notation "x <- m ;; k" := (bind m (λ x, k))
  (at level 100, m at next level, right associativity).
Notation "m ;; k" := (bind m (λ _, k))
  (at level 100, right associativity).

(** ** numpy arrays *)

Inductive float_dtype : Type := float16 | float32 | float64.

Inductive dtype : Type :=
  | Floating (f : float_dtype)
  | Integer (signed : bool) (bits : N).

Global Instance float_dtype_eq_dec : EqDecision float_dtype.
Proof. solve_decision. Defined.
Global Instance dtype_eq_dec : EqDecision dtype.
Proof. solve_decision. Defined.

(** An array object: element type and elements (in storage order; the
    operations below are elementwise, so the shape plays no part). *)
Record ndarray : Type := { arr_dtype : dtype; arr_data : list Q }.

(** The object store: location [i] holds the [i]-th array allocated. *)
Abbreviation loc := nat.
Abbreviation heap := (list ndarray).

Definition load (l : loc) : M heap ndarray :=
  λ h, match h !! l with
       | Some a => (Ok a, h)
       | None => (Raise NoSuchObject, h)
       end.

Definition alloc (a : ndarray) : M heap loc :=
  λ h, (Ok (length h), h ++ [a]).

Definition store (l : loc) (a : ndarray) : M heap unit :=
  λ h, (Ok tt, <[l := a]> h).

(** [image.astype(t, copy=copy)]: a new array unless [copy] is false and
    the element type is [t] already; conversion to a floating type keeps
    every value. *)
Definition astype (image : loc) (t : float_dtype) (copy : bool) : M heap loc :=
  a <- load image ;;
  if negb copy && bool_decide (arr_dtype a = Floating t)
  then ret image
  else alloc {| arr_dtype := Floating t; arr_data := arr_data a |}.

(** [np.clip] on one element: [minimum(maximum(x, lo), hi)]. *)
Definition clip (x : Q) (lo hi : Z) : Q :=
  Qmin (Qmax x (inject_Z lo)) (inject_Z hi).

(** [np.clip(image, lo, hi, out=image)]. *)
Definition np_clip_out (image : loc) (lo hi : Z) : M heap loc :=
  a <- load image ;;
  store image {| arr_dtype := arr_dtype a;
                 arr_data := (λ x, clip x lo hi) <$> arr_data a |} ;;
  ret image.

(** [image.clip(lo, hi)]: the clipped values in a new array. *)
Definition ndarray_clip (image : loc) (lo hi : Z) : M heap loc :=
  a <- load image ;;
  alloc {| arr_dtype := arr_dtype a;
           arr_data := (λ x, clip x lo hi) <$> arr_data a |}.

(** [image -= c]. *)
Definition isub (image : loc) (c : Q) : M heap unit :=
  a <- load image ;;
  store image {| arr_dtype := arr_dtype a;
                 arr_data := (λ x, x - c)%Q <$> arr_data a |}.

(** [image /= c]. *)
Definition itruediv (image : loc) (c : Q) : M heap unit :=
  a <- load image ;;
  store image {| arr_dtype := arr_dtype a;
                 arr_data := (λ x, x / c)%Q <$> arr_data a |}.

(** The builtin [max(a, b)]: [b] when [b > a], else [a]. *)
Definition py_max (a b : Q) : Q :=
  match (a ?= b)%Q with
  | Lt => b
  | _ => a
  end.

(** The float literal [1e-8]. *)
Definition eps : Q := 1 # 100000000.

(** ** Strategy instances *)

Record IntensityProperties : Type := { mean : Q; std : Q }.

(** Modelled from the spec: the base class [ImageNormalization] of
    [default_normalization_schemes], of which only the two instance
    attributes read by [run] are kept; [target_dtype] is a floating-point
    precision. *)
Record ImageNormalization : Type := {
  intensityproperties : option IntensityProperties;
  target_dtype : float_dtype
}.

(** ** custom_normalization_schemes.py *)

Definition CTWindowNeg15To115Normalization_run
    (self : ImageNormalization) (image : loc) (seg : option loc) : M heap loc :=
  match intensityproperties self with
  | None =>
      raise (AssertionError (py "CTNormalization requires intensity properties"))
  | Some props =>
      let mean_intensity := mean props in
      let std_intensity := std props in
      let lower_bound := -15 in
      let upper_bound := 115 in
      image <- astype image (target_dtype self) false ;;
      np_clip_out image lower_bound upper_bound ;;
      isub image mean_intensity ;;
      itruediv image (py_max std_intensity eps) ;;
      ret image
  end.

Definition CTWindowNeg100To200Normalization_run
    (self : ImageNormalization) (image : loc) (seg : option loc) : M heap loc :=
  match intensityproperties self with
  | None =>
      raise (AssertionError (py "CTNormalization requires intensity properties"))
  | Some props =>
      let mean_intensity := mean props in
      let std_intensity := std props in
      let lower_bound := -100 in
      let upper_bound := 200 in
      image <- astype image (target_dtype self) false ;;
      np_clip_out image lower_bound upper_bound ;;
      isub image mean_intensity ;;
      itruediv image (py_max std_intensity eps) ;;
      ret image
  end.

(** ** map_channel_name_to_normalization.py *)

(** The closure returned by [create_run_method]. *)
Definition create_run_method (lower_bound upper_bound : Z)
    (self : ImageNormalization) (image : loc) (seg : option loc) : M heap loc :=
  match intensityproperties self with
  | None =>
      raise (AssertionError
               (py "Custom range CT normalization requires intensity properties"))
  | Some props =>
      let mean_intensity := mean props in
      let std_intensity := std props in
      image <- astype image (target_dtype self) true ;;
      image <- ndarray_clip image lower_bound upper_bound ;;
      isub image mean_intensity ;;
      itruediv image (py_max std_intensity eps) ;;
      ret image
  end.

(** A class made by [type(class_name, (ImageNormalization,), attributes)]:
    its identity, its [__name__], the flag of [attributes] and the two
    variables captured by its [run] closure. *)
Record DynamicClass : Type := {
  class_id : nat;
  class_name : list N;
  leaves_pixels_outside_mask_at_zero_if_use_mask_for_norm_is_true : bool;
  run_lower_bound : Z;
  run_upper_bound : Z
}.

(** The attribute [run] of a synthesized class. *)
Definition run (c : DynamicClass) :
    ImageNormalization → loc → option loc → M heap loc :=
  create_run_method (run_lower_bound c) (run_upper_bound c).

(** The values of [Type[ImageNormalization]] the resolver can return: the
    five classes imported from [default_normalization_schemes] and the
    synthesized ones. *)
Inductive NormalizationClass : Type :=
  | CTNormalization
  | NoNormalization
  | ZScoreNormalization
  | RescaleTo01Normalization
  | RGBTo01Normalization
  | Synthesized (c : DynamicClass).

Definition channel_name_to_normalization_mapping : gmap (list N) NormalizationClass :=
  list_to_map [
    (py "ct", CTNormalization);
    (py "nonorm", NoNormalization);
    (py "zscore", ZScoreNormalization);
    (py "rescale_to_0_1", RescaleTo01Normalization);
    (py "rgb_to_0_1", RGBTo01Normalization)
  ].

(** The interpreter state the resolver works on: the module-level cache
    and the identity the next class object will get. *)
Record state : Type := {
  next_class_id : nat;
  _dynamic_normalization_classes : gmap (list N) NormalizationClass
}.

(** The state right after the module is imported. *)
Definition initial_state : state :=
  {| next_class_id := 0; _dynamic_normalization_classes := ∅ |}.

(** The f-string of line 41. *)
Definition class_name_of (lower upper : Z) : list N :=
  py "CTWindow"
  ++ (if lower <? 0 then py "Neg" else []) ++ str (Z.abs lower)
  ++ py "To"
  ++ (if upper <? 0 then py "Neg" else []) ++ str (Z.abs upper)
  ++ py "Normalization".

(** The f-string of line 39. *)
Definition invalid_window_message (lower upper : Z) : list N :=
  py "Invalid CT window: lower bound (" ++ str lower
  ++ py ") greater than or equal to upper bound (" ++ str upper
  ++ py ")".

(** [type(class_name, (ImageNormalization,), attributes)]. *)
Definition new_class (class_name : list N) (lower upper : Z) : M state NormalizationClass :=
  λ st,
    let c := Synthesized {|
      class_id := next_class_id st;
      class_name := class_name;
      leaves_pixels_outside_mask_at_zero_if_use_mask_for_norm_is_true := false;
      run_lower_bound := lower;
      run_upper_bound := upper |} in
    (Ok c, {| next_class_id := S (next_class_id st);
              _dynamic_normalization_classes := _dynamic_normalization_classes st |}).

Definition cache_get (k : list N) : M state (option NormalizationClass) :=
  λ st, (Ok (_dynamic_normalization_classes st !! k), st).

Definition cache_set (k : list N) (c : NormalizationClass) : M state unit :=
  λ st, (Ok tt, {| next_class_id := next_class_id st;
                   _dynamic_normalization_classes :=
                     <[k := c]> (_dynamic_normalization_classes st) |}).

(** ** The strategies whose [run] these files define *)

Inductive CTWindowClass : Type :=
  | CTWindowNeg15To115Normalization
  | CTWindowNeg100To200Normalization
  | SynthesizedWindow (c : DynamicClass).

(** The clipping window of a strategy. *)
Definition window_bounds (k : CTWindowClass) : Z * Z :=
  match k with
  | CTWindowNeg15To115Normalization => (-15, 115)
  | CTWindowNeg100To200Normalization => (-100, 200)
  | SynthesizedWindow c => (run_lower_bound c, run_upper_bound c)
  end.

(** Method lookup: [k.run]. *)
Definition window_run (k : CTWindowClass) :
    ImageNormalization → loc → option loc → M heap loc :=
  match k with
  | CTWindowNeg15To115Normalization => CTWindowNeg15To115Normalization_run
  | CTWindowNeg100To200Normalization => CTWindowNeg100To200Normalization_run
  | SynthesizedWindow c => run c
  end.

(** The class attribute [__name__]: the name in the [class] statement, or
    the first argument of [type(...)]. *)
Definition window_class_name (k : CTWindowClass) : list N :=
  match k with
  | CTWindowNeg15To115Normalization => py "CTWindowNeg15To115Normalization"
  | CTWindowNeg100To200Normalization => py "CTWindowNeg100To200Normalization"
  | SynthesizedWindow c => class_name c
  end.

(** The class attribute
    [leaves_pixels_outside_mask_at_zero_if_use_mask_for_norm_is_true]. *)
Definition window_leaves_pixels_outside_mask_at_zero (k : CTWindowClass) : bool :=
  match k with
  | CTWindowNeg15To115Normalization => false
  | CTWindowNeg100To200Normalization => false
  | SynthesizedWindow c =>
      leaves_pixels_outside_mask_at_zero_if_use_mask_for_norm_is_true c
  end.

(** The normalized value of one element: clip, then center, then scale. *)
Definition clip_center_scale (bounds : Z * Z) (props : IntensityProperties)
    (v : Q) : Q :=
  ((clip v (fst bounds) (snd bounds) - mean props) / py_max (std props) eps)%Q.

(** The array a CT-window [run] leaves behind for the input array [a]. *)
Definition normalized_array (t : float_dtype) (bounds : Z * Z)
    (props : IntensityProperties) (a : ndarray) : ndarray :=
  {| arr_dtype := Floating t;
     arr_data := clip_center_scale bounds props <$> arr_data a |}.

(** The body shared by the two fixed-bound [run] methods. *)
Definition inplace_run (lower_bound upper_bound : Z)
    (self : ImageNormalization) (image : loc) (seg : option loc) : M heap loc :=
  match intensityproperties self with
  | None =>
      raise (AssertionError (py "CTNormalization requires intensity properties"))
  | Some props =>
      image <- astype image (target_dtype self) false ;;
      np_clip_out image lower_bound upper_bound ;;
      isub image (mean props) ;;
      itruediv image (py_max (std props) eps) ;;
      ret image
  end.

(** The class object [type(...)] builds for a bound pair when the next
    free identity is [id]. *)
Definition synthesized_class (id : nat) (lower upper : Z) : NormalizationClass :=
  Synthesized {|
    class_id := id;
    class_name := class_name_of lower upper;
    leaves_pixels_outside_mask_at_zero_if_use_mask_for_norm_is_true := false;
    run_lower_bound := lower;
    run_upper_bound := upper |}.

(** ** Vocabulary of the statements *)

Definition ascii_digit (c : N) : Prop := (48 ≤ c ≤ 57)%N.

(** [str.casefold] on an ASCII code point: ['A'..'Z'] to ['a'..'z']. *)
Definition ascii_lower (c : N) : N :=
  if ((65 <=? c) && (c <=? 90))%N then (c + 32)%N else c.

(** ASCII code points that are not upper-case letters. *)
Definition ascii_caseless (c : N) : Prop := (c < 65 ∨ 90 < c < 128)%N.

(** ** Sample inputs *)

(** An interpreter whose Unicode tables fold nothing and know no digit
    above ASCII; the sample names below are ASCII, so the tables are never
    consulted on them. *)
Definition ascii_fold : N → list N := λ c, [c].

Definition ascii_decimal : N → option Z := λ _, None.

(** One float32 array holding 500 and -1000. *)
Definition sample_array : ndarray :=
  {| arr_dtype := Floating float32; arr_data := [500%Q; (-1000)%Q] |}.

(** A strategy instance, with or without intensity properties. *)
Definition sample_self (p : option IntensityProperties) : ImageNormalization :=
  {| intensityproperties := p; target_dtype := float32 |}.

(** Intensity properties with mean 100. *)
Definition sample_props (s : Q) : IntensityProperties :=
  {| mean := 100; std := s |}.

(** The channel name [f'ct_to_{lower}_{upper}']. *)
Definition ct_to_name (lower upper : Z) : list N :=
  py "ct_to_" ++ str lower ++ py "_" ++ str upper.

Section Resolver.

(** [str.casefold] and the decimal-digit property on code points above
    ASCII come from the interpreter's Unicode database; the ASCII range
    is spelled out below. *)
Variable fold_nonascii : N → list N.
Variable nonascii_decimal : N → option Z.

Definition casefold_char (c : N) : list N :=
  if (c <? 128)%N then [ascii_lower c] else fold_nonascii c.

(** [s.casefold()]: full case folding, one code point at a time. *)
Definition casefold (s : list N) : list N := flat_map casefold_char s.

(** The value of a code point matched by [\d] (what [int] reads it as). *)
Definition decimal_value (c : N) : option Z :=
  if (c <? 128)%N
  then if ((48 <=? c) && (c <=? 57))%N then Some (Z.of_N c - 48) else None
  else nonascii_decimal c.

Definition is_digit (c : N) : bool :=
  match decimal_value c with Some _ => true | None => false end.

(** The longest run of [\d] at the start of [s], and what follows it. *)
Fixpoint span_digits (s : list N) : list N * list N :=
  match s with
  | c :: s' =>
      if is_digit c
      then let '(ds, r) := span_digits s' in (c :: ds, r)
      else ([], s)
  | [] => ([], [])
  end.

(** The sub-pattern [-?\d+] at the start of [s]: the text it matches
    and the rest of [s]. *)
Definition match_int (s : list N) : option (list N * list N) :=
  let '(sign, r) :=
    match s with
    | c :: r => if (c =? 45)%N then ([c], r) else ([], s)
    | [] => ([], s)
    end in
  let '(ds, rest) := span_digits r in
  match ds with
  | [] => None
  | _ :: _ => Some (sign ++ ds, rest)
  end.

(** [re.fullmatch(r'ct_to_(-?\d+)_(-?\d+)', s)]: groups 1 and 2. *)
Definition fullmatch (s : list N) : option (list N * list N) :=
  r0 ← strip_prefix (py "ct_to_") s;
  '(g1, r1) ← match_int r0;
  r2 ← strip_prefix (py "_") r1;
  '(g2, r3) ← match_int r2;
  match r3 with
  | [] => Some (g1, g2)
  | _ :: _ => None
  end.

Definition int_digits (ds : list N) : Z :=
  fold_left (λ acc c, 10 * acc + default 0 (decimal_value c)) ds 0.

(** [int(g)] on a text matched by [-?\d+]. *)
Definition int (g : list N) : Z :=
  match g with
  | c :: ds => if (c =? 45)%N then - int_digits ds else int_digits g
  | [] => int_digits g
  end.

(** The body of [get_normalization_scheme], with the module-level dict it
    reads, [channel_name_to_normalization_mapping], as an argument. *)
Definition get_normalization_scheme_with
    (mapping : gmap (list N) NormalizationClass) (channel_name : list N) :
    M state NormalizationClass :=
  match mapping !! casefold channel_name with
  | Some norm_scheme => ret norm_scheme
  | None =>
      match fullmatch (casefold channel_name) with
      | Some (g1, g2) =>
          let lower := int g1 in
          let upper := int g2 in
          if lower >=? upper
          then raise (ValueError (invalid_window_message lower upper))
          else
            let class_name := class_name_of lower upper in
            cached <- cache_get class_name ;;
            match cached with
            | Some norm_scheme => ret norm_scheme
            | None =>
                norm_scheme <- new_class class_name lower upper ;;
                cache_set class_name norm_scheme ;;
                ret norm_scheme
            end
      | None => ret ZScoreNormalization
      end
  end.

Definition get_normalization_scheme :
    list N → M state NormalizationClass :=
  get_normalization_scheme_with channel_name_to_normalization_mapping.

(** What may follow a greedy run of digits: nothing, or a non-digit. *)
Definition stops (r : list N) : Prop :=
  match r with
  | [] => True
  | c :: _ => is_digit c = false
  end.

Arguments is_digit : simpl never.

Definition int_step (acc : Z) (c : N) : Z :=
  10 * acc + default 0 (decimal_value c).

(** The language of [-?\d+]: an optional minus sign, then one digit or
    more. *)
Definition int_text (g : list N) : Prop :=
  ∃ sign ds, g = sign ++ ds ∧ (sign = [] ∨ sign = [45%N]) ∧
             ds ≠ [] ∧ Forall (λ c, is_digit c = true) ds.

(** The case-folded name matches the pattern and its groups read as
    [lower] and [upper]. *)
Definition resolves_to (name : list N) (lower upper : Z) : Prop :=
  ∃ g1 g2, fullmatch (casefold name) = Some (g1, g2) ∧
           int g1 = lower ∧ int g2 = upper.

(** The state after a sequence of resolutions, whatever they returned. *)
Definition calls (names : list (list N)) (st : state) : state :=
  fold_left (λ st name, snd (get_normalization_scheme name st)) names st.

(** The states the module can be in: the cache is only ever touched by
    [get_normalization_scheme]. *)
Definition reachable (st : state) : Prop :=
  ∃ names, st = calls names initial_state.

(** Every cache entry is a class synthesized for a valid bound pair and
    stored under the encoding of that pair. *)
Definition cache_inv (st : state) : Prop :=
  ∀ k c, _dynamic_normalization_classes st !! k = Some c →
    ∃ id lower upper,
      (id < next_class_id st)%nat ∧ lower < upper ∧
      k = class_name_of lower upper ∧ c = synthesized_class id lower upper.

(** ** Prefixes *)

Lemma strip_prefix_app (p s : list N) : strip_prefix p (p ++ s) = Some s.
Proof.
  induction p as [|a p IH]; simpl; [done|].
  by rewrite N.eqb_refl.
Qed.

Lemma strip_prefix_Some (p s r : list N) :
  strip_prefix p s = Some r → s = p ++ r.
Proof.
  revert s. induction p as [|a p IH]; intros [|b s]; simpl; try congruence.
  destruct (N.eqb_spec a b) as [->|]; [|done].
  intros H. by rewrite (IH _ H).
Qed.

(** ** Decimal text: [str], [\d] and [int] *)

Lemma decimal_value_ascii_digit (c : N) :
  ascii_digit c → decimal_value c = Some (Z.of_N c - 48).
Proof.
  intros [Hlo Hhi]. unfold decimal_value.
  destruct (N.ltb_spec c 128) as [_|?]; [|lia].
  destruct (N.leb_spec 48 c) as [_|?]; [|lia].
  destruct (N.leb_spec c 57) as [_|?]; [done|lia].
Qed.

Lemma is_digit_ascii_digit (c : N) : ascii_digit c → is_digit c = true.
Proof.
  intros H. unfold is_digit. by rewrite (decimal_value_ascii_digit c H).
Qed.

Lemma is_digit_ascii_other (c : N) :
  (c < 128)%N → ¬ ascii_digit c → is_digit c = false.
Proof.
  intros Hc Hn. unfold is_digit, decimal_value, ascii_digit in *.
  destruct (N.ltb_spec c 128) as [_|?]; [|lia].
  destruct (N.leb_spec 48 c), (N.leb_spec c 57); simpl; try done; lia.
Qed.

(** Closes [stops (c :: _)] for a literal ASCII [c] that is no digit. *)
Ltac literal_stops :=
  simpl; apply is_digit_ascii_other; unfold ascii_digit; lia.

Lemma uint_chars_ascii_digit (d : Decimal.uint) :
  Forall ascii_digit (uint_chars d).
Proof.
  induction d; simpl; constructor; try done; unfold ascii_digit; lia.
Qed.

Lemma span_digits_app (ds r : list N) :
  Forall (λ c, is_digit c = true) ds → stops r →
  span_digits (ds ++ r) = (ds, r).
Proof.
  intros Hds Hr. induction Hds as [|c ds Hc _ IH]; simpl.
  - destruct r as [|c r]; [done|]. simpl in *. by rewrite Hr.
  - by rewrite Hc, IH.
Qed.

Lemma span_digits_spec (s ds r : list N) :
  span_digits s = (ds, r) →
  s = ds ++ r ∧ Forall (λ c, is_digit c = true) ds ∧ stops r.
Proof.
  revert ds r. induction s as [|c s IH]; simpl; intros ds r H.
  - by injection H as <- <-.
  - destruct (is_digit c) eqn:Hc.
    + destruct (span_digits s) as [ds' r'] eqn:Hs.
      injection H as <- <-.
      destruct (IH _ _ eq_refl) as (-> & Hds & Hr).
      split; [done|]. split; [by constructor|done].
    + injection H as <- <-. by repeat split.
Qed.

Lemma int_digits_uint_acc (d : Decimal.uint) (acc : positive) :
  fold_left int_step (uint_chars d) (Z.pos acc) = Z.pos (Pos.of_uint_acc d acc).
Proof.
  revert acc. induction d; intros acc; simpl; [done|..];
    rewrite <- IHd; f_equal; unfold int_step;
    (rewrite decimal_value_ascii_digit by (unfold ascii_digit; lia));
    simpl; lia.
Qed.

Lemma int_digits_uint (d : Decimal.uint) :
  int_digits (uint_chars d) = Z.of_uint d.
Proof.
  unfold int_digits, Z.of_uint. fold int_step.
  induction d; simpl; [done|done|..]; apply int_digits_uint_acc.
Qed.

Lemma to_int_nonnil (z : Z) :
  match Z.to_int z with
  | Decimal.Pos d => d ≠ Nil ∧ 0 ≤ z
  | Decimal.Neg d => d ≠ Nil ∧ z < 0
  end.
Proof.
  destruct z as [|p|p]; simpl; split; try done; try lia;
    apply DecimalPos.Unsigned.to_uint_nonnil.
Qed.

Lemma uint_chars_head (d : Decimal.uint) :
  d ≠ Nil → ∃ c cs, uint_chars d = c :: cs ∧ ascii_digit c.
Proof.
  intros Hd. pose proof (uint_chars_ascii_digit d) as Hall.
  destruct (uint_chars d) as [|c cs] eqn:E.
  - by destruct d.
  - exists c, cs. split; [done|]. by inversion Hall.
Qed.

Lemma ascii_digit_not_minus (c : N) : ascii_digit c → (c =? 45)%N = false.
Proof. unfold ascii_digit. intros H. apply N.eqb_neq. lia. Qed.

(** [int(str(z)) == z]. *)
Lemma int_str (z : Z) : int (str z) = z.
Proof.
  rewrite <- (DecimalZ.of_to z) at 2. unfold str, int.
  pose proof (to_int_nonnil z) as Hz.
  destruct (Z.to_int z) as [d|d]; simpl.
  - destruct Hz as [Hd _].
    destruct (uint_chars_head d Hd) as (c & cs & E & Hc).
    rewrite <- int_digits_uint, E.
    by rewrite (ascii_digit_not_minus c Hc).
  - by rewrite int_digits_uint.
Qed.

Lemma str_inj (z z' : Z) : str z = str z' → z = z'.
Proof. intros H. by rewrite <- (int_str z), H, int_str. Qed.

Lemma digits_is_digit (d : Decimal.uint) :
  Forall (λ c, is_digit c = true) (uint_chars d).
Proof.
  eapply Forall_impl; [apply uint_chars_ascii_digit|].
  apply is_digit_ascii_digit.
Qed.

(** [-?\d+] reads back exactly the text [str z] when a non-digit or the
    end of the string follows. *)
Lemma match_int_str (z : Z) (r : list N) :
  stops r → match_int (str z ++ r) = Some (str z, r).
Proof.
  intros Hr. unfold str, match_int.
  pose proof (to_int_nonnil z) as Hz.
  destruct (Z.to_int z) as [d|d]; destruct Hz as [Hd _].
  - destruct (uint_chars_head d Hd) as (c & cs & E & Hc).
    pose proof (span_digits_app _ r (digits_is_digit d) Hr) as Hs.
    rewrite E in *. cbn [app] in *. cbn beta iota.
    rewrite (ascii_digit_not_minus c Hc), Hs. done.
  - cbn [app]. cbn beta iota. rewrite N.eqb_refl.
    rewrite (span_digits_app _ r (digits_is_digit d) Hr).
    destruct (uint_chars_head d Hd) as (c & cs & E & _).
    by rewrite E.
Qed.

Lemma fullmatch_ct_to_name (lower upper : Z) :
  fullmatch (ct_to_name lower upper) = Some (str lower, str upper).
Proof.
  unfold fullmatch, ct_to_name.
  rewrite strip_prefix_app. simpl.
  rewrite match_int_str; [|literal_stops].
  simpl. rewrite <- (app_nil_r (str upper)).
  rewrite match_int_str; [|done]. simpl. by rewrite app_nil_r.
Qed.

Lemma match_int_Some (s g r : list N) :
  match_int s = Some (g, r) → s = g ++ r ∧ int_text g ∧ stops r.
Proof.
  unfold match_int.
  destruct s as [|c s'].
  - simpl. done.
  - destruct (N.eqb_spec c 45) as [->|Hc].
    + destruct (span_digits s') as [ds rest] eqn:Hs.
      destruct (span_digits_spec _ _ _ Hs) as (-> & Hds & Hr).
      destruct ds as [|d ds]; [done|]. intros [= <- <-].
      split; [done|]. split; [|done].
      exists [45%N], (d :: ds). naive_solver.
    + destruct (span_digits (c :: s')) as [ds rest] eqn:Hs.
      destruct (span_digits_spec _ _ _ Hs) as (E & Hds & Hr).
      destruct ds as [|d ds]; [done|]. intros [= <- <-].
      split; [done|]. split; [|done].
      exists [], (d :: ds). naive_solver.
Qed.

(** A successful [fullmatch] means the whole string has the shape of the
    pattern, with the groups as returned. *)
Lemma fullmatch_Some (s g1 g2 : list N) :
  fullmatch s = Some (g1, g2) →
  s = py "ct_to_" ++ g1 ++ py "_" ++ g2 ∧ int_text g1 ∧ int_text g2.
Proof.
  unfold fullmatch. intros H.
  apply bind_Some in H as (r0 & H0 & H).
  apply bind_Some in H as ([h1 r1] & H1 & H).
  apply bind_Some in H as (r2 & H2 & H).
  apply bind_Some in H as ([h2 r3] & H3 & H).
  apply strip_prefix_Some in H0 as ->.
  apply match_int_Some in H1 as (-> & Hg1 & _).
  apply strip_prefix_Some in H2 as ->.
  apply match_int_Some in H3 as (-> & Hg2 & _).
  destruct r3; [|done]. injection H as <- <-.
  by rewrite app_nil_r.
Qed.

Lemma is_digit_not_minus (c : N) : is_digit c = true → (c =? 45)%N = false.
Proof.
  intros Hc. apply N.eqb_neq. intros ->.
  rewrite is_digit_ascii_other in Hc; [done|lia|unfold ascii_digit; lia].
Qed.

Lemma match_int_text (g r : list N) :
  int_text g → stops r → match_int (g ++ r) = Some (g, r).
Proof.
  intros (sign & ds & -> & Hsign & Hne & Hds) Hr. unfold match_int.
  destruct ds as [|d ds]; [done|].
  pose proof (span_digits_app _ r Hds Hr) as Hs.
  destruct Hsign as [->| ->]; cbn [app] in *; cbn beta iota.
  - inversion Hds as [|? ? Hd _]; subst.
    by rewrite (is_digit_not_minus d Hd), Hs.
  - by rewrite N.eqb_refl, Hs.
Qed.

(** [fullmatch] accepts exactly the language of the pattern. *)
Lemma fullmatch_iff (s g1 g2 : list N) :
  fullmatch s = Some (g1, g2) ↔
  s = py "ct_to_" ++ g1 ++ py "_" ++ g2 ∧ int_text g1 ∧ int_text g2.
Proof.
  split; [apply fullmatch_Some|].
  intros (-> & Hg1 & Hg2). unfold fullmatch.
  rewrite strip_prefix_app. cbn [mbind option_bind].
  rewrite match_int_text;
    [|done|literal_stops].
  cbn [mbind option_bind]. rewrite strip_prefix_app.
  cbn [mbind option_bind]. rewrite <- (app_nil_r g2).
  rewrite match_int_text; [|done..].
  cbn [mbind option_bind]. by rewrite app_nil_r.
Qed.

(** ** Case folding *)

Lemma casefold_char_caseless (c : N) : ascii_caseless c → casefold_char c = [c].
Proof.
  unfold ascii_caseless, casefold_char, ascii_lower. intros H.
  destruct (N.ltb_spec c 128); [|lia].
  destruct (N.leb_spec 65 c), (N.leb_spec c 90); simpl; try done; lia.
Qed.

Lemma casefold_caseless (s : list N) : Forall ascii_caseless s → casefold s = s.
Proof.
  unfold casefold. induction 1 as [|c s Hc _ IH]; simpl; [done|].
  by rewrite (casefold_char_caseless c Hc), IH.
Qed.

(** On an ASCII name, case folding is lower-casing: every case variant of
    a lower-case key folds to the key. *)
Lemma casefold_ascii (s : list N) :
  Forall (λ c, (c < 128)%N) s → casefold s = ascii_lower <$> s.
Proof.
  unfold casefold. induction 1 as [|c s Hc _ IH]; simpl; [done|].
  rewrite IH. unfold casefold_char.
  by destruct (N.ltb_spec c 128); [|lia].
Qed.

Lemma str_caseless (z : Z) : Forall ascii_caseless (str z).
Proof.
  assert (∀ d, Forall ascii_caseless (uint_chars d)) as Hd.
  { intros d. eapply Forall_impl; [apply uint_chars_ascii_digit|].
    unfold ascii_digit, ascii_caseless. simpl. lia. }
  unfold str. destruct (Z.to_int z); [done|].
  constructor; [|done]. unfold ascii_caseless. lia.
Qed.

Lemma casefold_ct_to_name (lower upper : Z) :
  casefold (ct_to_name lower upper) = ct_to_name lower upper.
Proof.
  apply casefold_caseless. unfold ct_to_name.
  repeat apply Forall_app_2; try apply str_caseless;
    unfold py; simpl; repeat constructor; unfold ascii_caseless; lia.
Qed.

(** ** The static table *)

Lemma mapping_keys (k : list N) (c : NormalizationClass) :
  channel_name_to_normalization_mapping !! k = Some c ↔
  (k = py "ct" ∧ c = CTNormalization) ∨
  (k = py "nonorm" ∧ c = NoNormalization) ∨
  (k = py "zscore" ∧ c = ZScoreNormalization) ∨
  (k = py "rescale_to_0_1" ∧ c = RescaleTo01Normalization) ∨
  (k = py "rgb_to_0_1" ∧ c = RGBTo01Normalization).
Proof.
  unfold channel_name_to_normalization_mapping.
  rewrite <- elem_of_list_to_map.
  - rewrite !elem_of_cons, elem_of_nil. intuition congruence.
  - compute_done.
Qed.

(** No key of the static table has the shape of the dynamic pattern. *)
Lemma mapping_not_pattern (k : list N) (c : NormalizationClass) :
  channel_name_to_normalization_mapping !! k = Some c → fullmatch k = None.
Proof.
  rewrite mapping_keys. intros [[-> _]|[[-> _]|[[-> _]|[[-> _]|[-> _]]]]]; done.
Qed.

Lemma pattern_not_mapping (k : list N) (g : list N * list N) :
  fullmatch k = Some g → channel_name_to_normalization_mapping !! k = None.
Proof.
  intros Hk. destruct (_ !! k) as [c|] eqn:E; [|done].
  apply mapping_not_pattern in E. congruence.
Qed.

(** ** The class-name encoding *)

Lemma str_nonneg (n : Z) :
  0 ≤ n →
  Forall (λ c, is_digit c = true) (str n) ∧
  ∃ c cs, str n = c :: cs ∧ ascii_digit c.
Proof.
  intros Hn. unfold str. pose proof (to_int_nonnil n) as H.
  destruct (Z.to_int n) as [d|d]; [|lia].
  split; [apply digits_is_digit|]. apply uint_chars_head, H.
Qed.

(** Two runs of digits, each followed by a non-digit, that give the same
    text are the same run. *)
Lemma digits_app_inj (ds ds' r r' : list N) :
  Forall (λ c, is_digit c = true) ds → Forall (λ c, is_digit c = true) ds' →
  stops r → stops r' → ds ++ r = ds' ++ r' → ds = ds' ∧ r = r'.
Proof.
  intros Hd Hd' Hr Hr' E.
  pose proof (span_digits_app ds r Hd Hr) as H.
  rewrite E, (span_digits_app ds' r' Hd' Hr') in H.
  by injection H as -> ->.
Qed.

(** One bound of the class name: ['Neg'] for a negative bound, then the
    digits of its magnitude. *)
Lemma bound_text_inj (z z' : Z) (r r' : list N) :
  stops r → stops r' →
  (if z <? 0 then py "Neg" else []) ++ str (Z.abs z) ++ r =
  (if z' <? 0 then py "Neg" else []) ++ str (Z.abs z') ++ r' →
  z = z' ∧ r = r'.
Proof.
  intros Hr Hr'.
  destruct (str_nonneg (Z.abs z) (Z.abs_nonneg z)) as (Hd & c & cs & Ec & Hc).
  destruct (str_nonneg (Z.abs z') (Z.abs_nonneg z')) as (Hd' & c' & cs' & Ec' & Hc').
  assert (str (Z.abs z) ++ r = str (Z.abs z') ++ r' →
          Z.abs z = Z.abs z' ∧ r = r') as Hsame.
  { intros E. destruct (digits_app_inj _ _ _ _ Hd Hd' Hr Hr' E) as [E1 E2].
    split; [by apply str_inj|done]. }
  destruct (Z.ltb_spec z 0), (Z.ltb_spec z' 0); simpl.
  - intros [= E]. destruct (Hsame E). split; [lia|done].
  - rewrite Ec'. intros [= <- _]. unfold ascii_digit in Hc'. lia.
  - rewrite Ec. intros [= -> _]. unfold ascii_digit in Hc. lia.
  - intros E. destruct (Hsame E). split; [lia|done].
Qed.

(** The encoding of line 41 determines both bounds. *)
Lemma class_name_of_inj (lower upper lower' upper' : Z) :
  class_name_of lower upper = class_name_of lower' upper' →
  lower = lower' ∧ upper = upper'.
Proof.
  unfold class_name_of. intros E.
  apply app_inv_head in E.
  apply bound_text_inj in E as [-> E]; [|literal_stops..].
  apply app_inv_head in E.
  apply bound_text_inj in E as [-> _]; [|literal_stops..].
  done.
Qed.

(** ** The resolver, branch by branch *)

Lemma gns_static (name : list N) (c : NormalizationClass) (st : state) :
  channel_name_to_normalization_mapping !! casefold name = Some c →
  get_normalization_scheme name st = (Ok c, st).
Proof. intros H. unfold get_normalization_scheme, get_normalization_scheme_with. by rewrite H. Qed.

(** Whatever the table holds, a hit in it is what the call returns: the
    pattern and the cache are not looked at. *)
Lemma table_hit_first (mapping : gmap (list N) NormalizationClass)
    (name : list N) (c : NormalizationClass) (st : state) :
  mapping !! casefold name = Some c →
  get_normalization_scheme_with mapping name st = (Ok c, st).
Proof. intros H. unfold get_normalization_scheme_with. by rewrite H. Qed.

Lemma gns_default (name : list N) (st : state) :
  channel_name_to_normalization_mapping !! casefold name = None →
  fullmatch (casefold name) = None →
  get_normalization_scheme name st = (Ok ZScoreNormalization, st).
Proof. intros H1 H2. unfold get_normalization_scheme, get_normalization_scheme_with. by rewrite H1, H2. Qed.

Lemma gns_invalid (name : list N) (lower upper : Z) (st : state) :
  resolves_to name lower upper → lower >= upper →
  get_normalization_scheme name st =
    (Raise (ValueError (invalid_window_message lower upper)), st).
Proof.
  intros (g1 & g2 & Hm & <- & <-) Hge. unfold get_normalization_scheme, get_normalization_scheme_with.
  rewrite (pattern_not_mapping _ _ Hm), Hm.
  destruct (Z.geb_spec (int g1) (int g2)); [done|lia].
Qed.

Lemma gns_cached (name : list N) (lower upper : Z) (c : NormalizationClass)
    (st : state) :
  resolves_to name lower upper → lower < upper →
  _dynamic_normalization_classes st !! class_name_of lower upper = Some c →
  get_normalization_scheme name st = (Ok c, st).
Proof.
  intros (g1 & g2 & Hm & <- & <-) Hlt Hc. unfold get_normalization_scheme, get_normalization_scheme_with.
  rewrite (pattern_not_mapping _ _ Hm), Hm.
  destruct (Z.geb_spec (int g1) (int g2)); [lia|].
  unfold bind, cache_get. by rewrite Hc.
Qed.

Lemma gns_fresh (name : list N) (lower upper : Z) (st : state) :
  resolves_to name lower upper → lower < upper →
  _dynamic_normalization_classes st !! class_name_of lower upper = None →
  get_normalization_scheme name st =
    (Ok (synthesized_class (next_class_id st) lower upper),
     {| next_class_id := S (next_class_id st);
        _dynamic_normalization_classes :=
          <[class_name_of lower upper :=
              synthesized_class (next_class_id st) lower upper]>
            (_dynamic_normalization_classes st) |}).
Proof.
  intros (g1 & g2 & Hm & <- & <-) Hlt Hc. unfold get_normalization_scheme, get_normalization_scheme_with.
  rewrite (pattern_not_mapping _ _ Hm), Hm.
  destruct (Z.geb_spec (int g1) (int g2)); [lia|].
  unfold bind, cache_get. by rewrite Hc.
Qed.

Lemma resolves_to_ct_to_name (lower upper : Z) :
  resolves_to (ct_to_name lower upper) lower upper.
Proof.
  exists (str lower), (str upper).
  by rewrite casefold_ct_to_name, fullmatch_ct_to_name, !int_str.
Qed.

(** The five ways a call can go. *)
Lemma gns_cases (name : list N) (st : state) :
  (∃ c, channel_name_to_normalization_mapping !! casefold name = Some c ∧
        get_normalization_scheme name st = (Ok c, st)) ∨
  (get_normalization_scheme name st = (Ok ZScoreNormalization, st)) ∨
  (∃ lower upper, resolves_to name lower upper ∧ lower >= upper ∧
        get_normalization_scheme name st =
          (Raise (ValueError (invalid_window_message lower upper)), st)) ∨
  (∃ lower upper c, resolves_to name lower upper ∧ lower < upper ∧
        _dynamic_normalization_classes st !! class_name_of lower upper = Some c ∧
        get_normalization_scheme name st = (Ok c, st)) ∨
  (∃ lower upper, resolves_to name lower upper ∧ lower < upper ∧
        _dynamic_normalization_classes st !! class_name_of lower upper = None ∧
        get_normalization_scheme name st =
          (Ok (synthesized_class (next_class_id st) lower upper),
           {| next_class_id := S (next_class_id st);
              _dynamic_normalization_classes :=
                <[class_name_of lower upper :=
                    synthesized_class (next_class_id st) lower upper]>
                  (_dynamic_normalization_classes st) |})).
Proof.
  destruct (channel_name_to_normalization_mapping !! casefold name) as [c|] eqn:Ht.
  { left. exists c. split; [done|]. by apply gns_static. }
  destruct (fullmatch (casefold name)) as [[g1 g2]|] eqn:Hm.
  2:{ right; left. by apply gns_default. }
  assert (resolves_to name (int g1) (int g2)) as Hr by (by exists g1, g2).
  destruct (Z_lt_ge_dec (int g1) (int g2)) as [Hlt|Hge].
  2:{ right; right; left. exists (int g1), (int g2).
      split; [done|]. split; [done|]. by apply (gns_invalid name (int g1) (int g2)). }
  destruct (_dynamic_normalization_classes st !! class_name_of (int g1) (int g2))
    as [c|] eqn:Hc.
  - right; right; right; left. exists (int g1), (int g2), c.
    split; [done|]. split; [done|]. split; [done|].
    by apply (gns_cached name (int g1) (int g2)).
  - right; right; right; right. exists (int g1), (int g2).
    split; [done|]. split; [done|]. split; [done|].
    by apply (gns_fresh name (int g1) (int g2)).
Qed.

(** ** The cache over a run of the module *)

Lemma calls_app (ns ms : list (list N)) (st : state) :
  calls (ns ++ ms) st = calls ms (calls ns st).
Proof. unfold calls. apply fold_left_app. Qed.

Lemma reachable_initial : reachable initial_state.
Proof. by exists []. Qed.

Lemma reachable_calls (names : list (list N)) (st : state) :
  reachable st → reachable (calls names st).
Proof.
  intros [ns ->]. exists (ns ++ names). by rewrite calls_app.
Qed.

Lemma reachable_step (name : list N) (st : state) :
  reachable st → reachable (snd (get_normalization_scheme name st)).
Proof. apply (reachable_calls [name]). Qed.

Lemma cache_inv_step (name : list N) (st : state) :
  cache_inv st → cache_inv (snd (get_normalization_scheme name st)).
Proof.
  intros Hinv.
  destruct (gns_cases name st) as
    [(c & _ & ->)|[->|[(l & u & _ & _ & ->)|[(l & u & c & _ & _ & _ & ->)|
     (l & u & _ & Hlt & Hnone & ->)]]]]; try done.
  intros k c. simpl. rewrite lookup_insert. case_decide as Hk.
  - intros [= <-]. exists (next_class_id st), l, u. repeat split; [lia|done..].
  - intros H. destruct (Hinv k c H) as (id & l' & u' & ? & ? & ? & ?).
    exists id, l', u'. repeat split; [lia|done..].
Qed.

Lemma cache_inv_calls (names : list (list N)) (st : state) :
  cache_inv st → cache_inv (calls names st).
Proof.
  revert st. induction names as [|n ns IH]; intros st H; [done|].
  apply IH, cache_inv_step, H.
Qed.

Lemma reachable_cache_inv (st : state) : reachable st → cache_inv st.
Proof.
  intros [names ->]. apply cache_inv_calls. intros k c. simpl.
  by rewrite lookup_empty.
Qed.

(** Entries are never overwritten or evicted. *)
Lemma cache_mono_step (name : list N) (st : state) (k : list N)
    (c : NormalizationClass) :
  _dynamic_normalization_classes st !! k = Some c →
  _dynamic_normalization_classes (snd (get_normalization_scheme name st)) !! k
    = Some c.
Proof.
  intros H.
  destruct (gns_cases name st) as
    [(c' & _ & ->)|[->|[(l & u & _ & _ & ->)|[(l & u & c' & _ & _ & _ & ->)|
     (l & u & _ & Hlt & Hnone & ->)]]]]; try done.
  simpl. rewrite lookup_insert_ne; [done|]. intros <-. congruence.
Qed.

Lemma cache_mono_calls (names : list (list N)) (st : state) (k : list N)
    (c : NormalizationClass) :
  _dynamic_normalization_classes st !! k = Some c →
  _dynamic_normalization_classes (calls names st) !! k = Some c.
Proof.
  revert st. induction names as [|n ns IH]; intros st H; [done|].
  apply IH, cache_mono_step, H.
Qed.

(** At most one entry per bound pair. *)
Lemma cache_inv_unique (st : state) (k1 k2 : list N) (d1 d2 : DynamicClass) :
  cache_inv st →
  _dynamic_normalization_classes st !! k1 = Some (Synthesized d1) →
  _dynamic_normalization_classes st !! k2 = Some (Synthesized d2) →
  run_lower_bound d1 = run_lower_bound d2 →
  run_upper_bound d1 = run_upper_bound d2 →
  k1 = k2 ∧ d1 = d2.
Proof.
  intros Hinv H1 H2 El Eu.
  destruct (Hinv _ _ H1) as (id1 & l1 & u1 & _ & _ & -> & [= ->]).
  destruct (Hinv _ _ H2) as (id2 & l2 & u2 & _ & _ & -> & [= ->]).
  simpl in El, Eu. subst l2 u2. split; [done|]. congruence.
Qed.

(** Distinct cache entries are distinct class objects. *)
Lemma reachable_ids_distinct (st : state) (k1 k2 : list N) (d1 d2 : DynamicClass) :
  reachable st →
  _dynamic_normalization_classes st !! k1 = Some (Synthesized d1) →
  _dynamic_normalization_classes st !! k2 = Some (Synthesized d2) →
  class_id d1 = class_id d2 → k1 = k2.
Proof.
  intros [names ->]. revert k1 k2 d1 d2.
  induction names as [|n ns IH] using rev_ind; intros k1 k2 d1 d2.
  { simpl. by rewrite lookup_empty. }
  rewrite calls_app. simpl.
  set (st := calls ns initial_state) in *.
  assert (cache_inv st) as Hinv by (apply reachable_cache_inv; by exists ns).
  destruct (gns_cases n st) as
    [(c & _ & ->)|[->|[(l & u & _ & _ & ->)|[(l & u & c & _ & _ & _ & ->)|
     (l & u & _ & Hlt & Hnone & ->)]]]]; try apply IH.
  simpl. rewrite !lookup_insert.
  repeat case_decide; try congruence.
  - intros [= <-] H2 Hid. simpl in Hid.
    destruct (Hinv _ _ H2) as (id & ? & ? & Hlt_id & _ & _ & [= ->]).
    simpl in Hid. lia.
  - intros H1 [= <-] Hid. simpl in Hid.
    destruct (Hinv _ _ H1) as (id & ? & ? & Hlt_id & _ & _ & [= ->]).
    simpl in Hid. lia.
  - apply IH.
Qed.

(** ** Properties of the resolver *)

(** C1: for bounds [lower < upper], resolving [ct_to_{lower}_{upper}]
    twice returns the same class object both times. After the first
    call that object is in the cache under the canonical class name; it
    was synthesized and registered by that call when the name was not
    cached yet; every later call whose name reads as the same bounds
    returns it again; and no two cache entries carry the same bound
    pair. *)
Theorem C1_same_bounds_same_class (lower upper : Z) (st : state) :
  reachable st → lower < upper →
  ∃ c st1,
    get_normalization_scheme (ct_to_name lower upper) st = (Ok c, st1) ∧
    get_normalization_scheme (ct_to_name lower upper) st1 = (Ok c, st1) ∧
    _dynamic_normalization_classes st1 !! class_name_of lower upper = Some c ∧
    (_dynamic_normalization_classes st !! class_name_of lower upper = None →
       c = synthesized_class (next_class_id st) lower upper ∧
       _dynamic_normalization_classes st1 =
         <[class_name_of lower upper := c]> (_dynamic_normalization_classes st)) ∧
    (∀ names name, resolves_to name lower upper →
       get_normalization_scheme name (calls names st1)
         = (Ok c, calls names st1)) ∧
    (∀ k1 k2 d1 d2,
       _dynamic_normalization_classes st1 !! k1 = Some (Synthesized d1) →
       _dynamic_normalization_classes st1 !! k2 = Some (Synthesized d2) →
       run_lower_bound d1 = run_lower_bound d2 →
       run_upper_bound d1 = run_upper_bound d2 →
       k1 = k2 ∧ d1 = d2).
Proof.
  intros Hreach Hlt.
  pose proof (resolves_to_ct_to_name lower upper) as Hres.
  assert (∀ c st1,
    get_normalization_scheme (ct_to_name lower upper) st = (Ok c, st1) →
    _dynamic_normalization_classes st1 !! class_name_of lower upper = Some c →
    (∀ names name, resolves_to name lower upper →
       get_normalization_scheme name (calls names st1)
         = (Ok c, calls names st1)) ∧
    (∀ k1 k2 d1 d2,
       _dynamic_normalization_classes st1 !! k1 = Some (Synthesized d1) →
       _dynamic_normalization_classes st1 !! k2 = Some (Synthesized d2) →
       run_lower_bound d1 = run_lower_bound d2 →
       run_upper_bound d1 = run_upper_bound d2 →
       k1 = k2 ∧ d1 = d2)) as Hlater.
  { intros c st1 Hcall Hc. split.
    - intros names name Hname.
      apply (gns_cached name lower upper); [done..|].
      by apply cache_mono_calls.
    - intros k1 k2 d1 d2. apply cache_inv_unique, reachable_cache_inv.
      replace st1 with (snd (get_normalization_scheme (ct_to_name lower upper) st))
        by (by rewrite Hcall).
      by apply reachable_step. }
  destruct (_dynamic_normalization_classes st !! class_name_of lower upper)
    as [c|] eqn:Hc.
  - pose proof (gns_cached _ _ _ c st Hres Hlt Hc) as Hcall.
    exists c, st. split; [done|]. split; [done|]. split; [done|].
    split; [done|]. by apply Hlater.
  - pose proof (gns_fresh _ _ _ st Hres Hlt Hc) as Hcall.
    set (c0 := synthesized_class (next_class_id st) lower upper) in *.
    set (st1 := {| next_class_id := S (next_class_id st);
                   _dynamic_normalization_classes :=
                     <[class_name_of lower upper := c0]>
                       (_dynamic_normalization_classes st) |}) in *.
    assert (_dynamic_normalization_classes st1 !! class_name_of lower upper
              = Some c0) as Hin by apply lookup_insert_eq.
    exists c0, st1. split; [exact Hcall|].
    split; [exact (gns_cached _ _ _ c0 st1 Hres Hlt Hin)|].
    split; [exact Hin|]. split; [done|].
    by apply Hlater.
Qed.

(** C2: when the case-folded name matches the pattern and the bounds it
    spells satisfy [lower >= upper], the call raises [ValueError] with a
    message that prints both bounds, and returns no class. *)
Theorem C2_invalid_window_raises (name g1 g2 : list N) (lower upper : Z)
    (st : state) :
  casefold name = py "ct_to_" ++ g1 ++ py "_" ++ g2 →
  int_text g1 → int_text g2 →
  int g1 = lower → int g2 = upper → lower >= upper →
  fst (get_normalization_scheme name st) =
    Raise (ValueError
      (py "Invalid CT window: lower bound (" ++ str lower
       ++ py ") greater than or equal to upper bound (" ++ str upper
       ++ py ")")).
Proof.
  intros Hname Hg1 Hg2 Hl Hu Hge.
  rewrite (gns_invalid name lower upper st); [done| |done].
  exists g1, g2. split; [|done]. by apply fullmatch_iff.
Qed.

(** C4: a name whose case-folded form is one of the five fixed keys
    resolves to the class the static table gives for that key, and the
    state is not touched. The table is consulted before anything else:
    whatever the dict holds, a name found in it gets the dict's class,
    also when it matches the [ct_to] pattern. *)
Theorem C4_static_table_first (name key : list N) (c : NormalizationClass)
    (st : state) :
  casefold name = key →
  (key, c) ∈ [ (py "ct", CTNormalization);
               (py "nonorm", NoNormalization);
               (py "zscore", ZScoreNormalization);
               (py "rescale_to_0_1", RescaleTo01Normalization);
               (py "rgb_to_0_1", RGBTo01Normalization) ] →
  get_normalization_scheme name st = (Ok c, st) ∧
  ∀ (mapping : gmap (list N) NormalizationClass) (c' : NormalizationClass),
    mapping !! key = Some c' →
    get_normalization_scheme_with mapping name st = (Ok c', st).
Proof.
  intros Hname Hkey. split.
  - apply gns_static. rewrite Hname.
    apply mapping_keys. revert Hkey.
    rewrite !elem_of_cons, elem_of_nil. intuition congruence.
  - intros mapping c' Hc'. apply table_hit_first. by rewrite Hname.
Qed.

(** C5: a name whose case-folded form is neither a key of the static
    table nor in the language of the pattern resolves to
    [ZScoreNormalization]; nothing is raised and the state is kept. *)
Theorem C5_default_is_zscore (name : list N) (st : state) :
  casefold name ∉ [py "ct"; py "nonorm"; py "zscore";
                   py "rescale_to_0_1"; py "rgb_to_0_1"] →
  (¬ ∃ g1 g2, casefold name = py "ct_to_" ++ g1 ++ py "_" ++ g2 ∧
              int_text g1 ∧ int_text g2) →
  get_normalization_scheme name st = (Ok ZScoreNormalization, st).
Proof.
  intros Hkey Hpat. apply gns_default.
  - destruct (_ !! casefold name) as [c|] eqn:E; [|done].
    exfalso. apply Hkey. apply mapping_keys in E.
    rewrite !elem_of_cons. tauto.
  - destruct (fullmatch (casefold name)) as [[g1 g2]|] eqn:E; [|done].
    exfalso. apply Hpat. exists g1, g2. by apply fullmatch_iff.
Qed.

(** C9: the class-name encoding determines the bound pair, and the class
    returned for [ct_to_{lower}_{upper}] in any state the module can
    reach clips with exactly [lower] and [upper]. *)
Theorem C9_class_name_injective (lower upper lower' upper' : Z) (st : state) :
  reachable st → lower < upper →
  (class_name_of lower upper = class_name_of lower' upper' →
     lower = lower' ∧ upper = upper') ∧
  ∃ d st',
    get_normalization_scheme (ct_to_name lower upper) st
      = (Ok (Synthesized d), st') ∧
    class_name d = class_name_of lower upper ∧
    run_lower_bound d = lower ∧ run_upper_bound d = upper ∧
    run d = create_run_method lower upper.
Proof.
  intros Hreach Hlt. split; [apply class_name_of_inj|].
  pose proof (resolves_to_ct_to_name lower upper) as Hres.
  destruct (_dynamic_normalization_classes st !! class_name_of lower upper)
    as [c|] eqn:Hc.
  - destruct (reachable_cache_inv st Hreach _ _ Hc)
      as (id & l & u & _ & _ & Hk & ->).
    apply class_name_of_inj in Hk as [<- <-].
    eexists _, st. split; [by apply (gns_cached _ lower upper)|done].
  - eexists _, _. split; [by apply (gns_fresh _ lower upper)|done].
Qed.

(** C10: a call that raises [ValueError] leaves the interpreter state,
    and so the cache, as it was. *)
Theorem C10_failed_resolution_keeps_cache (name msg : list N) (st st' : state) :
  get_normalization_scheme name st = (Raise (ValueError msg), st') →
  st' = st ∧
  _dynamic_normalization_classes st' = _dynamic_normalization_classes st.
Proof.
  destruct (gns_cases name st) as
    [(c & _ & ->)|[->|[(l & u & _ & _ & ->)|[(l & u & c & _ & _ & _ & ->)|
     (l & u & _ & _ & _ & ->)]]]]; try done.
  by intros [= _ <-].
Qed.

(** ** More on the resolver and its cache *)

(** In a reachable state a name that reads as a valid window gets a class
    synthesized for exactly that window. *)
Lemma gns_valid_synthesized (name : list N) (lower upper : Z) (st : state) :
  reachable st → resolves_to name lower upper → lower < upper →
  ∃ id st',
    get_normalization_scheme name st = (Ok (synthesized_class id lower upper), st') ∧
    _dynamic_normalization_classes st' !! class_name_of lower upper
      = Some (synthesized_class id lower upper).
Proof.
  intros Hreach Hres Hlt.
  destruct (_dynamic_normalization_classes st !! class_name_of lower upper)
    as [c|] eqn:Hc.
  - destruct (reachable_cache_inv st Hreach _ _ Hc)
      as (id & l & u & _ & _ & Hk & ->).
    apply class_name_of_inj in Hk as [<- <-].
    exists id, st. split; [by apply (gns_cached name lower upper)|done].
  - eexists _, _. split; [by apply (gns_fresh name lower upper)|].
    apply lookup_insert_eq.
Qed.

Lemma resolves_to_fun (name : list N) (l u l' u' : Z) :
  resolves_to name l u → resolves_to name l' u' → l = l' ∧ u = u'.
Proof.
  intros (g1 & g2 & H & <- & <-) (h1 & h2 & H' & <- & <-).
  rewrite H in H'. by injection H' as <- <-.
Qed.

(** X1: every entry of the cache, in any state the module can reach, is a
    synthesized class stored under its own [__name__]; that name encodes
    the two bounds its [run] captured, the lower bound is below the upper
    one, the mask flag is [False], and the class was created before the
    next free identity. *)
Theorem X1_cache_entries_well_formed (st : state) (k : list N)
    (c : NormalizationClass) :
  reachable st →
  _dynamic_normalization_classes st !! k = Some c →
  ∃ d, c = Synthesized d ∧
       class_name d = k ∧
       k = class_name_of (run_lower_bound d) (run_upper_bound d) ∧
       run_lower_bound d < run_upper_bound d ∧
       leaves_pixels_outside_mask_at_zero_if_use_mask_for_norm_is_true d = false ∧
       (class_id d < next_class_id st)%nat.
Proof.
  intros Hreach Hc.
  destruct (reachable_cache_inv st Hreach _ _ Hc)
    as (id & l & u & Hid & Hlt & -> & ->).
  eexists. split; [reflexivity|]. simpl. by repeat split.
Qed.

(** X2: the cache only grows: whatever names are resolved afterwards, and
    whether those calls return or raise, an entry keeps its key and its
    class object. *)
Theorem X2_cache_never_evicts (names : list (list N)) (st : state)
    (k : list N) (c : NormalizationClass) :
  _dynamic_normalization_classes st !! k = Some c →
  _dynamic_normalization_classes (calls names st) !! k = Some c ∧
  (next_class_id st ≤ next_class_id (calls names st))%nat.
Proof.
  intros Hc. split; [by apply cache_mono_calls|].
  clear Hc. revert st. induction names as [|n ns IH]; intros st; [done|].
  simpl. etransitivity; [|apply IH].
  destruct (gns_cases n st) as
    [(c' & _ & ->)|[->|[(l & u & _ & _ & ->)|[(l & u & c' & _ & _ & _ & ->)|
     (l & u & _ & _ & _ & ->)]]]]; simpl; lia.
Qed.


(** X4: two names that read as different valid windows get different class
    objects, whichever is resolved first, and each object clips with its
    own window. *)
Theorem X4_distinct_windows_distinct_classes (st : state)
    (name1 name2 : list N) (l1 u1 l2 u2 : Z) :
  reachable st →
  resolves_to name1 l1 u1 → l1 < u1 →
  resolves_to name2 l2 u2 → l2 < u2 →
  (l1, u1) ≠ (l2, u2) →
  ∃ d1 d2 st1 st2,
    get_normalization_scheme name1 st = (Ok (Synthesized d1), st1) ∧
    get_normalization_scheme name2 st1 = (Ok (Synthesized d2), st2) ∧
    class_id d1 ≠ class_id d2 ∧
    (run_lower_bound d1, run_upper_bound d1) = (l1, u1) ∧
    (run_lower_bound d2, run_upper_bound d2) = (l2, u2).
Proof.
  intros Hreach Hr1 Hlt1 Hr2 Hlt2 Hne.
  destruct (gns_valid_synthesized name1 l1 u1 st Hreach Hr1 Hlt1)
    as (id1 & st1 & Hcall1 & Hin1).
  assert (reachable st1) as Hreach1.
  { replace st1 with (snd (get_normalization_scheme name1 st))
      by (by rewrite Hcall1). by apply reachable_step. }
  destruct (gns_valid_synthesized name2 l2 u2 st1 Hreach1 Hr2 Hlt2)
    as (id2 & st2 & Hcall2 & Hin2).
  assert (reachable st2) as Hreach2.
  { replace st2 with (snd (get_normalization_scheme name2 st1))
      by (by rewrite Hcall2). by apply reachable_step. }
  assert (_dynamic_normalization_classes st2 !! class_name_of l1 u1
            = Some (synthesized_class id1 l1 u1)) as Hin1'.
  { replace st2 with (snd (get_normalization_scheme name2 st1))
      by (by rewrite Hcall2). by apply cache_mono_step. }
  eexists _, _, st1, st2. split; [exact Hcall1|]. split; [exact Hcall2|].
  split; [|done]. simpl. intros Hid.
  pose proof (reachable_ids_distinct st2 _ _ _ _ Hreach2 Hin1' Hin2 Hid) as Hk.
  apply class_name_of_inj in Hk as [-> ->]. by apply Hne.
Qed.


(** X6: only the two integers count, not how the name spells them: names
    that read as the same bounds (upper or lower case, leading zeros,
    [-0]) give the same result and the same new state from any state. *)
Theorem X6_spelling_does_not_matter (name1 name2 : list N) (lower upper : Z)
    (st : state) :
  resolves_to name1 lower upper → resolves_to name2 lower upper →
  get_normalization_scheme name1 st = get_normalization_scheme name2 st.
Proof.
  intros H1 H2.
  destruct (Z_lt_ge_dec lower upper) as [Hlt|Hge].
  - destruct (_dynamic_normalization_classes st !! class_name_of lower upper)
      as [c|] eqn:Hc.
    + by rewrite (gns_cached name1 lower upper c), (gns_cached name2 lower upper c).
    + by rewrite (gns_fresh name1 lower upper), (gns_fresh name2 lower upper).
  - by rewrite (gns_invalid name1 lower upper), (gns_invalid name2 lower upper).
Qed.

(** X7: what kind of class comes back. In a reachable state the call
    returns a synthesized class exactly when the name reads as a valid
    window; in every other case that returns, the class is one of the five
    imported ones. *)
Theorem X7_synthesized_iff_valid_window (name : list N) (st : state) :
  reachable st →
  ((∃ d st', get_normalization_scheme name st = (Ok (Synthesized d), st')) ↔
   (∃ lower upper, resolves_to name lower upper ∧ lower < upper)) ∧
  (∀ c st', get_normalization_scheme name st = (Ok c, st') →
     (∃ d, c = Synthesized d) ∨
     c ∈ [CTNormalization; NoNormalization; ZScoreNormalization;
          RescaleTo01Normalization; RGBTo01Normalization]).
Proof.
  intros Hreach.
  assert (∀ c st', get_normalization_scheme name st = (Ok c, st') →
    (∃ d lower upper, c = Synthesized d ∧ resolves_to name lower upper ∧
                      lower < upper) ∨
    c ∈ [CTNormalization; NoNormalization; ZScoreNormalization;
         RescaleTo01Normalization; RGBTo01Normalization]) as Hkind.
  { intros c st'.
    destruct (gns_cases name st) as
      [(c' & Hc' & ->)|[->|[(l & u & _ & _ & ->)|[(l & u & c' & Hr & Hlt & Hc' & ->)|
       (l & u & Hr & Hlt & _ & ->)]]]]; try done.
    - intros [= <- _]. right. apply mapping_keys in Hc'.
      rewrite !elem_of_cons. intuition.
    - intros [= <- _]. right. rewrite !elem_of_cons. tauto.
    - intros [= <- _]. left.
      destruct (reachable_cache_inv st Hreach _ _ Hc')
        as (id & l' & u' & _ & _ & _ & ->).
      by eexists _, l, u.
    - intros [= <- _]. left. by eexists _, l, u. }
  split; [split|].
  - intros (d & st' & Hcall).
    destruct (Hkind _ _ Hcall) as [(d' & l & u & _ & Hr & Hlt)|Hin].
    + by exists l, u.
    + rewrite !elem_of_cons, elem_of_nil in Hin. intuition discriminate.
  - intros (l & u & Hr & Hlt).
    destruct (gns_valid_synthesized name l u st Hreach Hr Hlt)
      as (id & st' & Hcall & _).
    by eexists _, st'.
  - intros c st' Hcall.
    destruct (Hkind _ _ Hcall) as [(d & _ & _ & -> & _)|Hin]; [left|right]; eauto.
Qed.

End Resolver.

(** ** Heap operations *)

Lemma load_Some (h : heap) (l : loc) (a : ndarray) :
  h !! l = Some a → load l h = (Ok a, h).
Proof. intros H. unfold load. by rewrite H. Qed.

Lemma np_clip_out_Some (h : heap) (l : loc) (a : ndarray) (lo hi : Z) :
  h !! l = Some a →
  np_clip_out l lo hi h =
    (Ok l, <[l := {| arr_dtype := arr_dtype a;
                     arr_data := (λ x, clip x lo hi) <$> arr_data a |}]> h).
Proof. intros H. unfold np_clip_out, bind. by rewrite (load_Some _ _ _ H). Qed.

Lemma isub_Some (h : heap) (l : loc) (a : ndarray) (c : Q) :
  h !! l = Some a →
  isub l c h =
    (Ok tt, <[l := {| arr_dtype := arr_dtype a;
                      arr_data := (λ x, x - c)%Q <$> arr_data a |}]> h).
Proof. intros H. unfold isub, bind. by rewrite (load_Some _ _ _ H). Qed.

Lemma itruediv_Some (h : heap) (l : loc) (a : ndarray) (c : Q) :
  h !! l = Some a →
  itruediv l c h =
    (Ok tt, <[l := {| arr_dtype := arr_dtype a;
                      arr_data := (λ x, x / c)%Q <$> arr_data a |}]> h).
Proof. intros H. unfold itruediv, bind. by rewrite (load_Some _ _ _ H). Qed.

Lemma ndarray_clip_Some (h : heap) (l : loc) (a : ndarray) (lo hi : Z) :
  h !! l = Some a →
  ndarray_clip l lo hi h =
    (Ok (length h),
     h ++ [ {| arr_dtype := arr_dtype a;
               arr_data := (λ x, clip x lo hi) <$> arr_data a |} ]).
Proof. intros H. unfold ndarray_clip, bind. by rewrite (load_Some _ _ _ H). Qed.

Lemma astype_same (h : heap) (l : loc) (a : ndarray) (t : float_dtype) :
  h !! l = Some a → arr_dtype a = Floating t →
  astype l t false h = (Ok l, h).
Proof.
  intros H Ht. unfold astype, bind. rewrite (load_Some _ _ _ H). simpl.
  by rewrite bool_decide_eq_true_2.
Qed.

Lemma astype_copy (h : heap) (l : loc) (a : ndarray) (t : float_dtype)
    (copy : bool) :
  h !! l = Some a → copy = true ∨ arr_dtype a ≠ Floating t →
  astype l t copy h =
    (Ok (length h), h ++ [ {| arr_dtype := Floating t; arr_data := arr_data a |} ]).
Proof.
  intros H Hc. unfold astype, bind. rewrite (load_Some _ _ _ H).
  destruct Hc as [->|Hne]; [done|].
  by rewrite bool_decide_eq_false_2, andb_false_r.
Qed.

(** Subtract and divide, both on the array at [l]. *)
Lemma sub_div_in_place (h : heap) (l : loc) (a : ndarray) (m d : Q) :
  h !! l = Some a →
  (isub l m ;; itruediv l d ;; ret l) h =
    (Ok l, <[l := {| arr_dtype := arr_dtype a;
                     arr_data := (λ x, (x - m) / d)%Q <$> arr_data a |}]> h).
Proof.
  intros H. pose proof (lookup_lt_Some _ _ _ H) as Hlen.
  unfold bind at 1. rewrite (isub_Some _ _ _ _ H).
  unfold bind at 1. erewrite itruediv_Some; [|by apply list_lookup_insert_eq].
  rewrite list_insert_insert_eq.
  unfold ret. simpl. by rewrite <- list_fmap_compose.
Qed.

(** Clip, subtract and divide, all three on the array at [l]. *)
Lemma clip_sub_div_in_place (h : heap) (l : loc) (a : ndarray) (lo hi : Z)
    (props : IntensityProperties) :
  h !! l = Some a →
  (np_clip_out l lo hi ;; isub l (mean props) ;;
   itruediv l (py_max (std props) eps) ;; ret l) h =
    (Ok l, <[l := {| arr_dtype := arr_dtype a;
                     arr_data := clip_center_scale (lo, hi) props <$> arr_data a |}]> h).
Proof.
  intros H. pose proof (lookup_lt_Some _ _ _ H) as Hlen.
  unfold bind at 1. rewrite (np_clip_out_Some _ _ _ _ _ H).
  erewrite sub_div_in_place; [|by apply list_lookup_insert_eq].
  rewrite list_insert_insert_eq. simpl. by rewrite <- list_fmap_compose.
Qed.

(** ** The three [run] methods on a heap *)

Lemma CTWindowNeg15To115Normalization_run_unfold :
  CTWindowNeg15To115Normalization_run = inplace_run (-15) 115.
Proof. reflexivity. Qed.

Lemma CTWindowNeg100To200Normalization_run_unfold :
  CTWindowNeg100To200Normalization_run = inplace_run (-100) 200.
Proof. reflexivity. Qed.

(** The array already has the target element type: it is normalized where
    it is. *)
Lemma inplace_run_same_dtype (lo hi : Z) (self : ImageNormalization)
    (props : IntensityProperties) (h : heap) (image : loc) (a : ndarray)
    (seg : option loc) :
  intensityproperties self = Some props → h !! image = Some a →
  arr_dtype a = Floating (target_dtype self) →
  inplace_run lo hi self image seg h =
    (Ok image, <[image := normalized_array (target_dtype self) (lo, hi) props a]> h).
Proof.
  intros Hp Ha Ht. unfold inplace_run. rewrite Hp.
  unfold bind at 1. rewrite (astype_same _ _ _ _ Ha Ht).
  rewrite (clip_sub_div_in_place _ _ _ _ _ _ Ha).
  unfold normalized_array. by rewrite Ht.
Qed.

(** Any other element type: [astype] allocates, and the new array is the
    one normalized. *)
Lemma inplace_run_other_dtype (lo hi : Z) (self : ImageNormalization)
    (props : IntensityProperties) (h : heap) (image : loc) (a : ndarray)
    (seg : option loc) :
  intensityproperties self = Some props → h !! image = Some a →
  arr_dtype a ≠ Floating (target_dtype self) →
  inplace_run lo hi self image seg h =
    (Ok (length h),
     h ++ [normalized_array (target_dtype self) (lo, hi) props a]).
Proof.
  intros Hp Ha Ht. unfold inplace_run. rewrite Hp.
  unfold bind at 1. rewrite (astype_copy _ _ _ _ _ Ha (or_intror Ht)).
  erewrite clip_sub_div_in_place; [|by apply list_lookup_middle].
  rewrite insert_app_r_alt, Nat.sub_diag by lia. done.
Qed.

(** The synthesized [run]: a copy by [astype], a second one by [clip], and
    the second one normalized. *)
Lemma create_run_method_Some (lo hi : Z) (self : ImageNormalization)
    (props : IntensityProperties) (h : heap) (image : loc) (a : ndarray)
    (seg : option loc) :
  intensityproperties self = Some props → h !! image = Some a →
  create_run_method lo hi self image seg h =
    (Ok (S (length h)),
     h ++ [ {| arr_dtype := Floating (target_dtype self); arr_data := arr_data a |};
            normalized_array (target_dtype self) (lo, hi) props a ]).
Proof.
  intros Hp Ha. unfold create_run_method. rewrite Hp.
  unfold bind at 1. rewrite (astype_copy _ _ _ _ _ Ha (or_introl eq_refl)).
  unfold bind at 1. erewrite ndarray_clip_Some; [|by apply list_lookup_middle].
  erewrite sub_div_in_place; [|by apply list_lookup_middle].
  rewrite insert_app_r_alt, Nat.sub_diag by lia.
  rewrite <- app_assoc. simpl. unfold normalized_array.
  rewrite <- list_fmap_compose, length_app, Nat.add_1_r. done.
Qed.

(** What every CT-window [run] does when the statistics are there: it
    returns an array holding the normalized values of the input. *)
Lemma window_run_Some (k : CTWindowClass) (self : ImageNormalization)
    (props : IntensityProperties) (h : heap) (image : loc) (a : ndarray)
    (seg : option loc) :
  intensityproperties self = Some props → h !! image = Some a →
  ∃ r h',
    window_run k self image seg h = (Ok r, h') ∧
    h' !! r = Some (normalized_array (target_dtype self) (window_bounds k) props a).
Proof.
  intros Hp Ha. pose proof (lookup_lt_Some _ _ _ Ha) as Hlen.
  assert (∀ lo hi, ∃ r h',
    inplace_run lo hi self image seg h = (Ok r, h') ∧
    h' !! r = Some (normalized_array (target_dtype self) (lo, hi) props a))
    as Hfixed.
  { intros lo hi.
    destruct (decide (arr_dtype a = Floating (target_dtype self))) as [Ht|Ht].
    - eexists _, _. split; [by apply inplace_run_same_dtype|].
      by apply list_lookup_insert_eq.
    - eexists _, _. split; [by apply inplace_run_other_dtype|].
      by apply list_lookup_middle. }
  destruct k as [| |c]; simpl.
  - rewrite CTWindowNeg15To115Normalization_run_unfold. apply Hfixed.
  - rewrite CTWindowNeg100To200Normalization_run_unfold. apply Hfixed.
  - eexists _, _. split; [by apply create_run_method_Some|].
    rewrite lookup_app_r by lia.
    by replace (S (length h) - length h)%nat with 1%nat by lia.
Qed.

(** ** The divisor *)

Lemma eps_pos : (0 < eps)%Q.
Proof. reflexivity. Qed.

Lemma py_max_pos (s : Q) : (0 < py_max s eps)%Q.
Proof.
  unfold py_max. destruct (s ?= eps)%Q eqn:E.
  - assert (s == eps)%Q as Hs by (by apply Qeq_alt).
    rewrite Hs. apply eps_pos.
  - apply eps_pos.
  - assert (eps < s)%Q as Hs by (by apply Qgt_alt).
    eapply Qlt_trans; [apply eps_pos|exact Hs].
Qed.

Lemma py_max_clamped (s : Q) : (s < eps)%Q → py_max s eps = eps.
Proof.
  intros H. assert ((s ?= eps)%Q = Lt) as E by (by apply Qlt_alt).
  unfold py_max. by rewrite E.
Qed.

(** ** Properties of the CT-window strategies *)

(** C3: with intensity properties present, [run] of a CT-window strategy
    with bounds [(lower, upper)] returns an array whose every element is
    [(clip(v, lower, upper) - mean) / max(std, 1e-8)] for the input element
    [v] at the same position. With mean 100 and std 50, the -15..115
    window sends 500 to [(115 - 100) / 50 = 0.3] and the -100..200 window
    sends -1000 to [(-100 - 100) / 50 = -4]. *)
Theorem C3_clip_then_center_then_scale (k : CTWindowClass)
    (self : ImageNormalization) (props : IntensityProperties) (h : heap)
    (image : loc) (a : ndarray) (seg : option loc) (i : nat) (v : Q) :
  intensityproperties self = Some props → h !! image = Some a →
  arr_data a !! i = Some v →
  ∃ r h' a',
    window_run k self image seg h = (Ok r, h') ∧ h' !! r = Some a' ∧
    arr_data a' =
      (λ x, (clip x (fst (window_bounds k)) (snd (window_bounds k)) - mean props)
            / py_max (std props) eps)%Q <$> arr_data a ∧
    arr_data a' !! i =
      Some ((clip v (fst (window_bounds k)) (snd (window_bounds k)) - mean props)
            / py_max (std props) eps)%Q ∧
    (mean props = 100%Q → std props = 50%Q →
       (k = CTWindowNeg15To115Normalization → v = 500%Q →
          ∃ y, arr_data a' !! i = Some y ∧ (y == 3 # 10)%Q) ∧
       (k = CTWindowNeg100To200Normalization → v = (-1000)%Q →
          ∃ y, arr_data a' !! i = Some y ∧ (y == -4)%Q)).
Proof.
  intros Hp Ha Hv.
  destruct (window_run_Some k self props h image a seg Hp Ha) as (r & h' & Hrun & Hr).
  exists r, h', (normalized_array (target_dtype self) (window_bounds k) props a).
  assert (arr_data (normalized_array (target_dtype self) (window_bounds k) props a)
            !! i = Some (clip_center_scale (window_bounds k) props v)) as Hi.
  { simpl. by rewrite list_lookup_fmap, Hv. }
  split; [done|]. split; [done|]. split; [done|]. split; [exact Hi|].
  intros Hm Hs. split; intros -> ->; eexists; (split; [exact Hi|]);
    unfold clip_center_scale; rewrite Hm, Hs; reflexivity.
Qed.

(** C6: with [intensityproperties] absent, [run] of every CT-window
    strategy raises [AssertionError] with a message saying which
    normalization needs the intensity properties, and the heap, so the
    input array too, is exactly as before the call. *)
Theorem C6_missing_properties_assertion (k : CTWindowClass)
    (self : ImageNormalization) (h : heap) (image : loc) (seg : option loc) :
  intensityproperties self = None →
  window_run k self image seg h =
    (Raise (AssertionError
       (match k with
        | SynthesizedWindow _ =>
            py "Custom range CT normalization requires intensity properties"
        | _ => py "CTNormalization requires intensity properties"
        end)), h).
Proof.
  intros Hp. destruct k; simpl;
    unfold CTWindowNeg15To115Normalization_run,
      CTWindowNeg100To200Normalization_run, run, create_run_method;
    by rewrite Hp.
Qed.

(** C7: with intensity properties present, [run] returns normally whatever
    [std] is; the number every element is divided by is [max(std, 1e-8)],
    which is positive, and is [1e-8] itself when [std] is 0 or anything
    below [1e-8]. *)
Theorem C7_divisor_clamped (k : CTWindowClass) (self : ImageNormalization)
    (props : IntensityProperties) (h : heap) (image : loc) (a : ndarray)
    (seg : option loc) :
  intensityproperties self = Some props → h !! image = Some a →
  ∃ r h' a',
    window_run k self image seg h = (Ok r, h') ∧ h' !! r = Some a' ∧
    arr_data a' =
      (λ x, (clip x (fst (window_bounds k)) (snd (window_bounds k)) - mean props)
            / py_max (std props) eps)%Q <$> arr_data a ∧
    (0 < py_max (std props) eps)%Q ∧
    ((std props < eps)%Q → py_max (std props) eps = eps) ∧
    ((std props == 0)%Q → py_max (std props) eps = 1 # 100000000).
Proof.
  intros Hp Ha.
  destruct (window_run_Some k self props h image a seg Hp Ha) as (r & h' & Hrun & Hr).
  eexists r, h', _. split; [done|]. split; [exact Hr|]. split; [done|].
  split; [apply py_max_pos|]. split; [apply py_max_clamped|].
  intros H0. apply py_max_clamped. by rewrite H0.
Qed.

(** C8: a fixed-bound [run] given an array of the target element type
    returns that same array, which then holds the normalized values, and
    touches no other array; given another element type it works on the
    copy [astype] made. The synthesized [run] always returns a new array
    with the normalized values and leaves every array of the caller,
    the input included, as it was. *)
Theorem C8_in_place_or_copy (k : CTWindowClass) (self : ImageNormalization)
    (props : IntensityProperties) (h : heap) (image : loc) (a : ndarray)
    (seg : option loc) :
  intensityproperties self = Some props → h !! image = Some a →
  ∃ r h',
    window_run k self image seg h = (Ok r, h') ∧
    h' !! r = Some (normalized_array (target_dtype self) (window_bounds k) props a) ∧
    match k with
    | SynthesizedWindow _ =>
        r ≠ image ∧ h' !! image = Some a ∧ (∀ l b, h !! l = Some b → h' !! l = Some b)
    | _ =>
        (arr_dtype a = Floating (target_dtype self) →
           r = image ∧ length h' = length h ∧ (∀ l, l ≠ image → h' !! l = h !! l)) ∧
        (arr_dtype a ≠ Floating (target_dtype self) →
           r ≠ image ∧ h' !! image = Some a)
    end.
Proof.
  intros Hp Ha. pose proof (lookup_lt_Some _ _ _ Ha) as Hlen.
  assert (∀ lo hi, ∃ r h',
    inplace_run lo hi self image seg h = (Ok r, h') ∧
    h' !! r = Some (normalized_array (target_dtype self) (lo, hi) props a) ∧
    (arr_dtype a = Floating (target_dtype self) →
       r = image ∧ length h' = length h ∧ (∀ l, l ≠ image → h' !! l = h !! l)) ∧
    (arr_dtype a ≠ Floating (target_dtype self) →
       r ≠ image ∧ h' !! image = Some a)) as Hfixed.
  { intros lo hi.
    destruct (decide (arr_dtype a = Floating (target_dtype self))) as [Ht|Ht].
    - eexists _, _. split; [by apply inplace_run_same_dtype|].
      split; [by apply list_lookup_insert_eq|]. split; [|done].
      intros _. split; [done|]. split; [apply length_insert|].
      intros l Hl. by apply list_lookup_insert_ne.
    - eexists _, _. split; [by apply inplace_run_other_dtype|].
      split; [by apply list_lookup_middle|]. split; [done|].
      intros _. split; [lia|]. by apply lookup_app_l_Some. }
  destruct k as [| |c]; simpl;
    [rewrite CTWindowNeg15To115Normalization_run_unfold; apply Hfixed
    |rewrite CTWindowNeg100To200Normalization_run_unfold; apply Hfixed|].
  eexists _, _. split; [by apply create_run_method_Some|].
  split.
  { rewrite lookup_app_r by lia.
    by replace (S (length h) - length h)%nat with 1%nat by lia. }
  split; [lia|]. split; [by apply lookup_app_l_Some|].
  intros l b Hl. by apply lookup_app_l_Some.
Qed.

(** ** More on the CT-window strategies *)

Lemma clip_range (x : Q) (lo hi : Z) :
  lo ≤ hi → (inject_Z lo <= clip x lo hi ∧ clip x lo hi <= inject_Z hi)%Q.
Proof.
  intros H. rewrite Zle_Qle in H. unfold clip. split.
  - apply Q.min_glb; [apply Q.le_max_r|done].
  - apply Q.le_min_r.
Qed.

Lemma clip_inside (x : Q) (lo hi : Z) :
  (inject_Z lo <= x)%Q → (x <= inject_Z hi)%Q → clip x lo hi = x.
Proof.
  intros Hlo Hhi. unfold clip, Qmax, Qmin, GenericMinMax.gmax, GenericMinMax.gmin.
  assert ((x ?= inject_Z hi)%Q ≠ Gt) as Hhi' by (by apply Qle_alt).
  destruct (x ?= inject_Z lo)%Q eqn:E1.
  - by destruct (x ?= inject_Z hi)%Q.
  - assert (x < inject_Z lo)%Q as Hlt by (by apply Qlt_alt).
    by apply Qle_not_lt in Hlo.
  - by destruct (x ?= inject_Z hi)%Q.
Qed.

Lemma clip_below (x : Q) (lo hi : Z) :
  lo ≤ hi → (x <= inject_Z lo)%Q → (clip x lo hi == inject_Z lo)%Q.
Proof.
  intros H Hx. rewrite Zle_Qle in H. unfold clip.
  rewrite Q.min_l.
  - by apply Q.max_r.
  - apply Q.max_lub; [by apply Qle_trans with (inject_Z lo)|done].
Qed.

Lemma clip_above (x : Q) (lo hi : Z) :
  (inject_Z hi <= x)%Q → (clip x lo hi == inject_Z hi)%Q.
Proof.
  intros Hx. unfold clip. apply Q.min_r.
  apply Qle_trans with x; [done|apply Q.le_max_l].
Qed.

Lemma clip_mono (x y : Q) (lo hi : Z) :
  (x <= y)%Q → (clip x lo hi <= clip y lo hi)%Q.
Proof.
  intros H. unfold clip. by apply Q.min_le_compat_r, Q.max_le_compat_r.
Qed.

(** Centering and scaling by a positive number keep the order. *)
Lemma center_scale_mono (m d x y : Q) :
  (0 < d)%Q → (x <= y)%Q → ((x - m) / d <= (y - m) / d)%Q.
Proof.
  intros Hd H. unfold Qdiv. apply Qmult_le_compat_r.
  - unfold Qminus. by apply Qplus_le_l.
  - by apply Qlt_le_weak, Qinv_lt_0_compat.
Qed.

(** X8: when the window is not empty ([lower <= upper], as for the two
    fixed classes and every class the resolver synthesizes), each element
    of the array [run] returns lies between [(lower - mean) / d] and
    [(upper - mean) / d], where [d = max(std, 1e-8)]. *)
Theorem X8_output_within_scaled_window (k : CTWindowClass)
    (self : ImageNormalization) (props : IntensityProperties) (h : heap)
    (image : loc) (a : ndarray) (seg : option loc) :
  intensityproperties self = Some props → h !! image = Some a →
  fst (window_bounds k) ≤ snd (window_bounds k) →
  ∃ r h' a',
    window_run k self image seg h = (Ok r, h') ∧ h' !! r = Some a' ∧
    Forall (λ y,
      ((inject_Z (fst (window_bounds k)) - mean props) / py_max (std props) eps
         <= y ∧
       y <= (inject_Z (snd (window_bounds k)) - mean props)
              / py_max (std props) eps)%Q)
      (arr_data a').
Proof.
  intros Hp Ha Hb.
  destruct (window_run_Some k self props h image a seg Hp Ha) as (r & h' & Hrun & Hr).
  eexists r, h', _. split; [done|]. split; [exact Hr|]. simpl.
  apply Forall_fmap, Forall_true. intros x. unfold clip_center_scale. simpl.
  destruct (clip_range x _ _ Hb).
  split; apply center_scale_mono; try apply py_max_pos; done.
Qed.

(** X9: element by element. A value inside the window is only centered
    and scaled; a value at or below the lower bound comes out as
    [(lower - mean) / d], and one at or above the upper bound as
    [(upper - mean) / d]. *)
Theorem X9_inside_below_above (k : CTWindowClass)
    (self : ImageNormalization) (props : IntensityProperties) (h : heap)
    (image : loc) (a : ndarray) (seg : option loc) (i : nat) (v : Q) :
  intensityproperties self = Some props → h !! image = Some a →
  arr_data a !! i = Some v →
  fst (window_bounds k) ≤ snd (window_bounds k) →
  ∃ r h' a' y,
    window_run k self image seg h = (Ok r, h') ∧ h' !! r = Some a' ∧
    arr_data a' !! i = Some y ∧
    ((inject_Z (fst (window_bounds k)) <= v)%Q →
     (v <= inject_Z (snd (window_bounds k)))%Q →
       y = ((v - mean props) / py_max (std props) eps)%Q) ∧
    ((v <= inject_Z (fst (window_bounds k)))%Q →
       (y == (inject_Z (fst (window_bounds k)) - mean props)
               / py_max (std props) eps)%Q) ∧
    ((inject_Z (snd (window_bounds k)) <= v)%Q →
       (y == (inject_Z (snd (window_bounds k)) - mean props)
               / py_max (std props) eps)%Q).
Proof.
  intros Hp Ha Hv Hb.
  destruct (window_run_Some k self props h image a seg Hp Ha) as (r & h' & Hrun & Hr).
  eexists r, h', _, _. split; [done|]. split; [exact Hr|].
  split; [simpl; by rewrite list_lookup_fmap, Hv|].
  unfold clip_center_scale. split; [|split].
  - intros Hlo Hhi. by rewrite clip_inside.
  - intros Hlo. by rewrite clip_below.
  - intros Hhi. by rewrite clip_above.
Qed.

(** X10: [run] keeps the order of intensities: of two input elements, the
    one that is not larger does not come out larger. *)
Theorem X10_run_is_monotone (k : CTWindowClass)
    (self : ImageNormalization) (props : IntensityProperties) (h : heap)
    (image : loc) (a : ndarray) (seg : option loc) (i j : nat) (v w : Q) :
  intensityproperties self = Some props → h !! image = Some a →
  arr_data a !! i = Some v → arr_data a !! j = Some w → (v <= w)%Q →
  ∃ r h' a' y z,
    window_run k self image seg h = (Ok r, h') ∧ h' !! r = Some a' ∧
    arr_data a' !! i = Some y ∧ arr_data a' !! j = Some z ∧ (y <= z)%Q.
Proof.
  intros Hp Ha Hv Hw Hle.
  destruct (window_run_Some k self props h image a seg Hp Ha) as (r & h' & Hrun & Hr).
  eexists r, h', _, _, _. split; [done|]. split; [exact Hr|].
  split; [simpl; by rewrite list_lookup_fmap, Hv|].
  split; [simpl; by rewrite list_lookup_fmap, Hw|].
  unfold clip_center_scale.
  apply center_scale_mono; [apply py_max_pos|by apply clip_mono].
Qed.

(** X11: the class the resolver synthesizes for the window of a
    fixed-bound class carries that class's name and mask flag, and its
    [run] computes the same array of values; it differs in leaving the
    input array alone. *)
Theorem X11_synthesized_twin_of_fixed_class
    (fold_nonascii : N → list N) (nonascii_decimal : N → option Z)
    (k : CTWindowClass) (st : state)
    (self : ImageNormalization) (props : IntensityProperties) (h : heap)
    (image : loc) (a : ndarray) (seg : option loc) :
  (∀ c, k ≠ SynthesizedWindow c) →
  reachable fold_nonascii nonascii_decimal st →
  intensityproperties self = Some props → h !! image = Some a →
  ∃ d st' r1 h1 r2 h2 out,
    get_normalization_scheme fold_nonascii nonascii_decimal
      (ct_to_name (fst (window_bounds k)) (snd (window_bounds k))) st
      = (Ok (Synthesized d), st') ∧
    class_name d = window_class_name k ∧
    leaves_pixels_outside_mask_at_zero_if_use_mask_for_norm_is_true d
      = window_leaves_pixels_outside_mask_at_zero k ∧
    run d self image seg h = (Ok r1, h1) ∧
    window_run k self image seg h = (Ok r2, h2) ∧
    h1 !! r1 = Some out ∧ h2 !! r2 = Some out ∧
    h1 !! image = Some a.
Proof.
  intros Hfixed Hreach Hp Ha.
  assert (fst (window_bounds k) < snd (window_bounds k) ∧
          class_name_of (fst (window_bounds k)) (snd (window_bounds k))
            = window_class_name k ∧
          window_leaves_pixels_outside_mask_at_zero k = false) as (Hlt & Hname & Hflag).
  { destruct k as [| |c]; [by repeat split..|by destruct (Hfixed c)]. }
  destruct (gns_valid_synthesized fold_nonascii nonascii_decimal _ _ _ st Hreach
              (resolves_to_ct_to_name fold_nonascii nonascii_decimal _ _) Hlt)
    as (id & st' & Hcall & _).
  destruct (window_run_Some k self props h image a seg Hp Ha) as (r2 & h2 & Hrun2 & Hr2).
  eexists _, st', _, _, r2, h2, _. split; [exact Hcall|].
  split; [exact Hname|]. split; [by rewrite Hflag|].
  split; [unfold run; simpl; by apply create_run_method_Some|].
  split; [exact Hrun2|]. split; [|split; [exact Hr2|]].
  - rewrite lookup_app_r by lia.
    by replace (S (length h) - length h)%nat with 1%nat by lia.
  - by apply lookup_app_l_Some.
Qed.



(** X14: calling [run] a second time on the same input. The synthesized
    [run] left the input alone, so the second call returns another new
    array with the same contents as the first. A fixed-bound [run] that
    worked in place finds its own output in the input array and normalizes
    it once more. *)
Theorem X14_second_run_on_same_input (k : CTWindowClass)
    (self : ImageNormalization) (props : IntensityProperties) (h : heap)
    (image : loc) (a : ndarray) (seg : option loc) :
  intensityproperties self = Some props → h !! image = Some a →
  arr_dtype a = Floating (target_dtype self) →
  ∃ r1 h1 r2 h2 out1 out2,
    window_run k self image seg h = (Ok r1, h1) ∧
    window_run k self image seg h1 = (Ok r2, h2) ∧
    h1 !! r1 = Some out1 ∧ h2 !! r2 = Some out2 ∧
    match k with
    | SynthesizedWindow _ => r1 ≠ r2 ∧ out2 = out1 ∧ h2 !! r1 = Some out1
    | _ =>
        r1 = image ∧ r2 = image ∧
        arr_data out2 =
          clip_center_scale (window_bounds k) props
            <$> (clip_center_scale (window_bounds k) props <$> arr_data a)
    end.
Proof.
  intros Hp Ha Ht. pose proof (lookup_lt_Some _ _ _ Ha) as Hlen.
  assert (∀ lo hi, ∃ h1 h2 out1 out2,
    inplace_run lo hi self image seg h = (Ok image, h1) ∧
    inplace_run lo hi self image seg h1 = (Ok image, h2) ∧
    h1 !! image = Some out1 ∧ h2 !! image = Some out2 ∧
    arr_data out2 =
      clip_center_scale (lo, hi) props
        <$> (clip_center_scale (lo, hi) props <$> arr_data a)) as Hfixed.
  { intros lo hi.
    set (a1 := normalized_array (target_dtype self) (lo, hi) props a).
    assert (<[image := a1]> h !! image = Some a1) as Ha1
      by (by apply list_lookup_insert_eq).
    eexists _, _, _, _.
    split; [by apply inplace_run_same_dtype|].
    split; [by apply (inplace_run_same_dtype lo hi self props _ image a1)|].
    split; [exact Ha1|].
    split; [apply list_lookup_insert_eq; by rewrite length_insert|done]. }
  destruct k as [| |c]; simpl.
  - rewrite CTWindowNeg15To115Normalization_run_unfold.
    destruct (Hfixed (-15) 115) as (h1 & h2 & o1 & o2 & ? & ? & ? & ? & ?).
    by exists image, h1, image, h2, o1, o2.
  - rewrite CTWindowNeg100To200Normalization_run_unfold.
    destruct (Hfixed (-100) 200) as (h1 & h2 & o1 & o2 & ? & ? & ? & ? & ?).
    by exists image, h1, image, h2, o1, o2.
  - unfold run.
    eexists _, _, _, _, _, _.
    split; [by apply create_run_method_Some|].
    split; [apply (create_run_method_Some _ _ self props _ image a);
            [done|by apply lookup_app_l_Some]|].
    split.
    { rewrite lookup_app_r by lia.
      by replace (S (length h) - length h)%nat with 1%nat by lia. }
    split.
    { rewrite lookup_app_r by lia.
      match goal with |- _ !! ?n = _ => replace n with 1%nat by lia end.
      done. }
    split; [rewrite length_app; simpl; lia|]. split; [done|].
    apply lookup_app_l_Some. rewrite lookup_app_r by lia.
    by replace (S (length h) - length h)%nat with 1%nat by lia.
Qed.

(** ** The model on concrete inputs *)

Example class_name_of_neg15_115 :
  class_name_of (-15) 115 = py "CTWindowNeg15To115Normalization".
Proof. reflexivity. Qed.

Example class_name_of_neg100_200 :
  class_name_of (-100) 200 = py "CTWindowNeg100To200Normalization".
Proof. reflexivity. Qed.

Example resolve_upper_case_window :
  fst (get_normalization_scheme ascii_fold ascii_decimal (py "CT_TO_-015_0115")
         initial_state)
  = Ok (synthesized_class 0 (-15) 115).
Proof. vm_compute. reflexivity. Qed.

Example resolve_two_windows :
  let st := calls ascii_fold ascii_decimal
              [py "ct_to_0_80"; py "ct_to_-15_115"; py "ct_to_0_80"] initial_state in
  next_class_id st = 2%nat ∧
  _dynamic_normalization_classes st !! class_name_of 0 80
    = Some (synthesized_class 0 0 80) ∧
  _dynamic_normalization_classes st !! class_name_of (-15) 115
    = Some (synthesized_class 1 (-15) 115).
Proof. vm_compute. by repeat split. Qed.

Example resolve_equal_bounds :
  fst (get_normalization_scheme ascii_fold ascii_decimal (py "ct_to_-0_0")
         initial_state)
  = Raise (ValueError
      (py "Invalid CT window: lower bound (0) greater than or equal to upper bound (0)")).
Proof. vm_compute. reflexivity. Qed.

Example resolve_not_a_window :
  fst (get_normalization_scheme ascii_fold ascii_decimal (py "ct_to_1_2_3")
         initial_state)
  = Ok ZScoreNormalization.
Proof. vm_compute. reflexivity. Qed.

(** A dict that also holds a name of the pattern's shape: the dict wins and
    nothing is cached. *)
Example table_beats_pattern :
  fullmatch ascii_decimal (py "ct_to_1_2") = Some (py "1", py "2") ∧
  get_normalization_scheme_with ascii_fold ascii_decimal
    {[ py "ct_to_1_2" := NoNormalization ]} (py "CT_to_1_2") initial_state
  = (Ok NoNormalization, initial_state).
Proof. split; vm_compute; reflexivity. Qed.

Example fixed_run_in_place :
  CTWindowNeg15To115Normalization_run (sample_self (Some (sample_props 50)))
    0%nat None [sample_array]
  = (Ok 0%nat,
     [ {| arr_dtype := Floating float32; arr_data := [15 # 50; -115 # 50] |} ]).
Proof. vm_compute. reflexivity. Qed.

Example synthesized_run_copies :
  create_run_method (-100) 200 (sample_self (Some (sample_props 50)))
    0%nat None [sample_array]
  = (Ok 2%nat,
     [ sample_array; sample_array;
       {| arr_dtype := Floating float32; arr_data := [100 # 50; -200 # 50] |} ]).
Proof. vm_compute. reflexivity. Qed.

Example fixed_run_on_integers :
  let ints := {| arr_dtype := Integer true 16; arr_data := [500%Q] |} in
  CTWindowNeg100To200Normalization_run (sample_self (Some (sample_props 50)))
    0%nat None [ints]
  = (Ok 1%nat,
     [ ints; {| arr_dtype := Floating float32; arr_data := [100 # 50] |} ]).
Proof. vm_compute. reflexivity. Qed.

(** ** The theorems at concrete inputs *)

Lemma C1_same_bounds_same_class_witness :
  reachable ascii_fold ascii_decimal initial_state ∧ -15 < 115 ∧
  ∃ c st1,
    get_normalization_scheme ascii_fold ascii_decimal (ct_to_name (-15) 115)
      initial_state = (Ok c, st1) ∧
    get_normalization_scheme ascii_fold ascii_decimal (ct_to_name (-15) 115)
      st1 = (Ok c, st1).
Proof.
  assert (reachable ascii_fold ascii_decimal initial_state) as Hr
    by (exists []; reflexivity).
  assert (-15 < 115) as Hlt by lia.
  split; [exact Hr|]. split; [exact Hlt|].
  destruct (C1_same_bounds_same_class ascii_fold ascii_decimal (-15) 115
              initial_state Hr Hlt) as (c & st1 & H1 & H2 & _).
  exists c, st1. split; [exact H1|exact H2].
Defined.

Lemma C2_invalid_window_raises_witness :
  casefold ascii_fold (py "CT_to_5_3") = py "ct_to_" ++ py "5" ++ py "_" ++ py "3" ∧
  int_text ascii_decimal (py "5") ∧ int_text ascii_decimal (py "3") ∧
  int ascii_decimal (py "5") = 5 ∧ int ascii_decimal (py "3") = 3 ∧ 5 >= 3 ∧
  fst (get_normalization_scheme ascii_fold ascii_decimal (py "CT_to_5_3")
         initial_state) =
    Raise (ValueError
      (py "Invalid CT window: lower bound (5) greater than or equal to upper bound (3)")).
Proof.
  assert (∀ c, ascii_digit c → int_text ascii_decimal [c]) as Hd.
  { intros c Hc. exists [], [c]. split; [reflexivity|]. split; [by left|].
    split; [discriminate|]. constructor; [|constructor].
    by apply is_digit_ascii_digit. }
  assert (int_text ascii_decimal (py "5")) as H5
    by (apply Hd; unfold ascii_digit; simpl; lia).
  assert (int_text ascii_decimal (py "3")) as H3
    by (apply Hd; unfold ascii_digit; simpl; lia).
  split; [reflexivity|]. split; [exact H5|]. split; [exact H3|].
  split; [reflexivity|]. split; [reflexivity|]. split; [lia|].
  apply (C2_invalid_window_raises ascii_fold ascii_decimal
           (py "CT_to_5_3") (py "5") (py "3") 5 3 initial_state);
    [reflexivity|exact H5|exact H3|reflexivity|reflexivity|lia].
Defined.

Lemma C4_static_table_first_witness :
  casefold ascii_fold (py "ZScore") = py "zscore" ∧
  get_normalization_scheme ascii_fold ascii_decimal (py "ZScore") initial_state
    = (Ok ZScoreNormalization, initial_state).
Proof.
  split; [reflexivity|].
  apply (C4_static_table_first ascii_fold ascii_decimal
           (py "ZScore") (py "zscore")); [reflexivity|].
  do 2 apply list_elem_of_further. apply list_elem_of_here.
Defined.

Lemma C5_default_is_zscore_witness :
  (casefold ascii_fold (py "mri") ∉ [py "ct"; py "nonorm"; py "zscore";
                                      py "rescale_to_0_1"; py "rgb_to_0_1"]) ∧
  get_normalization_scheme ascii_fold ascii_decimal (py "mri") initial_state
    = (Ok ZScoreNormalization, initial_state).
Proof.
  assert (casefold ascii_fold (py "mri") ∉
            [py "ct"; py "nonorm"; py "zscore";
             py "rescale_to_0_1"; py "rgb_to_0_1"]) as Hk.
  { rewrite !elem_of_cons, elem_of_nil. intros H.
    repeat (destruct H as [H|H]; [vm_compute in H; discriminate H|]).
    exact H. }
  split; [exact Hk|].
  apply (C5_default_is_zscore ascii_fold ascii_decimal); [exact Hk|].
  intros (g1 & g2 & H & _). vm_compute in H. discriminate H.
Defined.

Lemma C9_class_name_injective_witness :
  reachable ascii_fold ascii_decimal initial_state ∧ -15 < 115 ∧
  ∃ d st',
    get_normalization_scheme ascii_fold ascii_decimal (ct_to_name (-15) 115)
      initial_state = (Ok (Synthesized d), st') ∧
    run_lower_bound d = -15 ∧ run_upper_bound d = 115.
Proof.
  assert (reachable ascii_fold ascii_decimal initial_state) as Hr
    by (exists []; reflexivity).
  assert (-15 < 115) as Hlt by lia.
  split; [exact Hr|]. split; [exact Hlt|].
  destruct (C9_class_name_injective ascii_fold ascii_decimal (-15) 115 (-15) 115
              initial_state Hr Hlt) as (_ & d & st' & H & _ & Hl & Hu & _).
  exists d, st'. split; [exact H|]. split; [exact Hl|exact Hu].
Defined.

Lemma C10_failed_resolution_keeps_cache_witness :
  get_normalization_scheme ascii_fold ascii_decimal (py "ct_to_5_3") initial_state
    = (Raise (ValueError (invalid_window_message 5 3)), initial_state) ∧
  _dynamic_normalization_classes initial_state = ∅.
Proof.
  assert (get_normalization_scheme ascii_fold ascii_decimal (py "ct_to_5_3")
            initial_state
          = (Raise (ValueError (invalid_window_message 5 3)), initial_state))
    as Hcall by (vm_compute; reflexivity).
  split; [exact Hcall|].
  apply (C10_failed_resolution_keeps_cache ascii_fold ascii_decimal _ _ _ _ Hcall).
Defined.

Lemma C3_clip_then_center_then_scale_witness :
  intensityproperties (sample_self (Some (sample_props 50)))
    = Some (sample_props 50) ∧
  [sample_array] !! 0%nat = Some sample_array ∧
  arr_data sample_array !! 0%nat = Some 500%Q ∧
  ∃ r h' a' y,
    window_run CTWindowNeg15To115Normalization
      (sample_self (Some (sample_props 50))) 0%nat None [sample_array] = (Ok r, h') ∧
    h' !! r = Some a' ∧ arr_data a' !! 0%nat = Some y ∧ (y == 3 # 10)%Q.
Proof.
  split; [reflexivity|]. split; [reflexivity|]. split; [reflexivity|].
  destruct (C3_clip_then_center_then_scale CTWindowNeg15To115Normalization
              (sample_self (Some (sample_props 50))) (sample_props 50)
              [sample_array] 0%nat sample_array None 0%nat 500%Q
              eq_refl eq_refl eq_refl)
    as (r & h' & a' & Hrun & Hr & _ & _ & Hex).
  destruct (Hex eq_refl eq_refl) as [H15 _].
  destruct (H15 eq_refl eq_refl) as (y & Hy & Hq).
  exists r, h', a', y. split; [exact Hrun|]. split; [exact Hr|].
  split; [exact Hy|exact Hq].
Defined.

Lemma C6_missing_properties_assertion_witness :
  intensityproperties (sample_self None) = None ∧
  window_run CTWindowNeg100To200Normalization (sample_self None) 0%nat None
    [sample_array]
  = (Raise (AssertionError (py "CTNormalization requires intensity properties")),
     [sample_array]).
Proof.
  split; [reflexivity|].
  apply (C6_missing_properties_assertion CTWindowNeg100To200Normalization
           (sample_self None) [sample_array] 0%nat None eq_refl).
Defined.

Lemma C7_divisor_clamped_witness :
  intensityproperties (sample_self (Some (sample_props 0)))
    = Some (sample_props 0) ∧
  [sample_array] !! 0%nat = Some sample_array ∧
  ∃ r h',
    window_run CTWindowNeg15To115Normalization
      (sample_self (Some (sample_props 0))) 0%nat None [sample_array] = (Ok r, h') ∧
    py_max (std (sample_props 0)) eps = 1 # 100000000.
Proof.
  split; [reflexivity|]. split; [reflexivity|].
  destruct (C7_divisor_clamped CTWindowNeg15To115Normalization
              (sample_self (Some (sample_props 0))) (sample_props 0)
              [sample_array] 0%nat sample_array None eq_refl eq_refl)
    as (r & h' & a' & Hrun & _ & _ & _ & _ & H0).
  exists r, h'. split; [exact Hrun|]. apply H0. reflexivity.
Defined.

Lemma C8_in_place_or_copy_witness :
  intensityproperties (sample_self (Some (sample_props 50)))
    = Some (sample_props 50) ∧
  [sample_array] !! 0%nat = Some sample_array ∧
  ∃ h',
    window_run CTWindowNeg15To115Normalization
      (sample_self (Some (sample_props 50))) 0%nat None [sample_array]
      = (Ok 0%nat, h') ∧
    length h' = 1%nat.
Proof.
  split; [reflexivity|]. split; [reflexivity|].
  destruct (C8_in_place_or_copy CTWindowNeg15To115Normalization
              (sample_self (Some (sample_props 50))) (sample_props 50)
              [sample_array] 0%nat sample_array None eq_refl eq_refl)
    as (r & h' & Hrun & _ & Hsame & _).
  destruct (Hsame eq_refl) as (-> & Hlen & _).
  exists h'. split; [exact Hrun|exact Hlen].
Defined.

(** ** The further properties at concrete inputs *)

Lemma X1_cache_entries_well_formed_witness :
  reachable ascii_fold ascii_decimal
    (calls ascii_fold ascii_decimal [py "ct_to_0_80"] initial_state) ∧
  _dynamic_normalization_classes
    (calls ascii_fold ascii_decimal [py "ct_to_0_80"] initial_state)
    !! class_name_of 0 80 = Some (synthesized_class 0 0 80) ∧
  ∃ d, synthesized_class 0 0 80 = Synthesized d ∧
       run_lower_bound d < run_upper_bound d.
Proof.
  assert (reachable ascii_fold ascii_decimal
            (calls ascii_fold ascii_decimal [py "ct_to_0_80"] initial_state)) as Hr
    by (exists [py "ct_to_0_80"]; reflexivity).
  assert (_dynamic_normalization_classes
            (calls ascii_fold ascii_decimal [py "ct_to_0_80"] initial_state)
            !! class_name_of 0 80 = Some (synthesized_class 0 0 80)) as Hc
    by (vm_compute; reflexivity).
  split; [exact Hr|]. split; [exact Hc|].
  destruct (X1_cache_entries_well_formed ascii_fold ascii_decimal _ _ _ Hr Hc)
    as (d & Hd & _ & _ & Hlt & _).
  exists d. split; [exact Hd|exact Hlt].
Defined.

Lemma X2_cache_never_evicts_witness :
  _dynamic_normalization_classes
    (calls ascii_fold ascii_decimal [py "ct_to_0_80"] initial_state)
    !! class_name_of 0 80 = Some (synthesized_class 0 0 80) ∧
  _dynamic_normalization_classes
    (calls ascii_fold ascii_decimal [py "ct_to_-15_115"; py "ct_to_5_3"]
       (calls ascii_fold ascii_decimal [py "ct_to_0_80"] initial_state))
    !! class_name_of 0 80 = Some (synthesized_class 0 0 80).
Proof.
  assert (_dynamic_normalization_classes
            (calls ascii_fold ascii_decimal [py "ct_to_0_80"] initial_state)
            !! class_name_of 0 80 = Some (synthesized_class 0 0 80)) as Hc
    by (vm_compute; reflexivity).
  split; [exact Hc|].
  apply (X2_cache_never_evicts ascii_fold ascii_decimal
           [py "ct_to_-15_115"; py "ct_to_5_3"] _ _ _ Hc).
Defined.


Lemma X4_distinct_windows_distinct_classes_witness :
  reachable ascii_fold ascii_decimal initial_state ∧
  resolves_to ascii_fold ascii_decimal (py "ct_to_0_80") 0 80 ∧ 0 < 80 ∧
  resolves_to ascii_fold ascii_decimal (py "CT_to_-15_115") (-15) 115 ∧ -15 < 115 ∧
  (0, 80) ≠ (-15, 115) ∧
  ∃ d1 d2 st1 st2,
    get_normalization_scheme ascii_fold ascii_decimal (py "ct_to_0_80")
      initial_state = (Ok (Synthesized d1), st1) ∧
    get_normalization_scheme ascii_fold ascii_decimal (py "CT_to_-15_115")
      st1 = (Ok (Synthesized d2), st2) ∧
    class_id d1 ≠ class_id d2.
Proof.
  assert (reachable ascii_fold ascii_decimal initial_state) as Hr
    by (exists []; reflexivity).
  assert (resolves_to ascii_fold ascii_decimal (py "ct_to_0_80") 0 80) as H1
    by (exists (py "0"), (py "80"); vm_compute; repeat split).
  assert (resolves_to ascii_fold ascii_decimal (py "CT_to_-15_115") (-15) 115) as H2
    by (exists (py "-15"), (py "115"); vm_compute; repeat split).
  assert (0 < 80) as L1 by lia. assert (-15 < 115) as L2 by lia.
  assert ((0, 80) ≠ (-15, 115)) as Hne by discriminate.
  split; [exact Hr|]. split; [exact H1|]. split; [exact L1|].
  split; [exact H2|]. split; [exact L2|]. split; [exact Hne|].
  destruct (X4_distinct_windows_distinct_classes ascii_fold ascii_decimal
              initial_state _ _ _ _ _ _ Hr H1 L1 H2 L2 Hne)
    as (d1 & d2 & st1 & st2 & Hc1 & Hc2 & Hid & _).
  exists d1, d2, st1, st2. split; [exact Hc1|]. split; [exact Hc2|exact Hid].
Defined.

Lemma X6_spelling_does_not_matter_witness :
  resolves_to ascii_fold ascii_decimal (py "ct_to_-15_115") (-15) 115 ∧
  resolves_to ascii_fold ascii_decimal (py "CT_TO_-015_0115") (-15) 115 ∧
  get_normalization_scheme ascii_fold ascii_decimal (py "ct_to_-15_115")
    initial_state
  = get_normalization_scheme ascii_fold ascii_decimal (py "CT_TO_-015_0115")
      initial_state.
Proof.
  assert (resolves_to ascii_fold ascii_decimal (py "ct_to_-15_115") (-15) 115) as H1
    by (exists (py "-15"), (py "115"); vm_compute; repeat split).
  assert (resolves_to ascii_fold ascii_decimal (py "CT_TO_-015_0115") (-15) 115) as H2
    by (exists (py "-015"), (py "0115"); vm_compute; repeat split).
  split; [exact H1|]. split; [exact H2|].
  apply (X6_spelling_does_not_matter ascii_fold ascii_decimal _ _ _ _
           initial_state H1 H2).
Defined.

Lemma X7_synthesized_iff_valid_window_witness :
  reachable ascii_fold ascii_decimal initial_state ∧
  ∀ c st',
    get_normalization_scheme ascii_fold ascii_decimal (py "mri") initial_state
      = (Ok c, st') →
    (∃ d, c = Synthesized d) ∨
    c ∈ [CTNormalization; NoNormalization; ZScoreNormalization;
         RescaleTo01Normalization; RGBTo01Normalization].
Proof.
  assert (reachable ascii_fold ascii_decimal initial_state) as Hr
    by (exists []; reflexivity).
  split; [exact Hr|].
  apply (X7_synthesized_iff_valid_window ascii_fold ascii_decimal (py "mri")
           initial_state Hr).
Defined.

Lemma X8_output_within_scaled_window_witness :
  intensityproperties (sample_self (Some (sample_props 50)))
    = Some (sample_props 50) ∧
  [sample_array] !! 0%nat = Some sample_array ∧
  fst (window_bounds CTWindowNeg15To115Normalization)
    ≤ snd (window_bounds CTWindowNeg15To115Normalization) ∧
  ∃ r h' a',
    window_run CTWindowNeg15To115Normalization
      (sample_self (Some (sample_props 50))) 0%nat None [sample_array] = (Ok r, h') ∧
    h' !! r = Some a'.
Proof.
  assert (fst (window_bounds CTWindowNeg15To115Normalization)
            ≤ snd (window_bounds CTWindowNeg15To115Normalization)) as Hb
    by (simpl; lia).
  split; [reflexivity|]. split; [reflexivity|]. split; [exact Hb|].
  destruct (X8_output_within_scaled_window CTWindowNeg15To115Normalization
              (sample_self (Some (sample_props 50))) (sample_props 50)
              [sample_array] 0%nat sample_array None eq_refl eq_refl Hb)
    as (r & h' & a' & Hrun & Hr & _).
  exists r, h', a'. split; [exact Hrun|exact Hr].
Defined.

Lemma X9_inside_below_above_witness :
  intensityproperties (sample_self (Some (sample_props 50)))
    = Some (sample_props 50) ∧
  [sample_array] !! 0%nat = Some sample_array ∧
  arr_data sample_array !! 1%nat = Some (-1000)%Q ∧
  fst (window_bounds CTWindowNeg100To200Normalization)
    ≤ snd (window_bounds CTWindowNeg100To200Normalization) ∧
  ((-1000)%Q <= inject_Z (fst (window_bounds CTWindowNeg100To200Normalization)))%Q ∧
  ∃ r h' a' y,
    window_run CTWindowNeg100To200Normalization
      (sample_self (Some (sample_props 50))) 0%nat None [sample_array] = (Ok r, h') ∧
    h' !! r = Some a' ∧ arr_data a' !! 1%nat = Some y ∧
    (y == (inject_Z (-100) - 100) / py_max 50 eps)%Q.
Proof.
  assert (fst (window_bounds CTWindowNeg100To200Normalization)
            ≤ snd (window_bounds CTWindowNeg100To200Normalization)) as Hb
    by (simpl; lia).
  assert ((-1000)%Q
            <= inject_Z (fst (window_bounds CTWindowNeg100To200Normalization)))%Q
    as Hlow by (unfold Qle; simpl; lia).
  split; [reflexivity|]. split; [reflexivity|]. split; [reflexivity|].
  split; [exact Hb|]. split; [exact Hlow|].
  destruct (X9_inside_below_above CTWindowNeg100To200Normalization
              (sample_self (Some (sample_props 50))) (sample_props 50)
              [sample_array] 0%nat sample_array None 1%nat (-1000)%Q
              eq_refl eq_refl eq_refl Hb)
    as (r & h' & a' & y & Hrun & Hr & Hy & _ & Hbelow & _).
  exists r, h', a', y. split; [exact Hrun|]. split; [exact Hr|].
  split; [exact Hy|exact (Hbelow Hlow)].
Defined.

Lemma X10_run_is_monotone_witness :
  intensityproperties (sample_self (Some (sample_props 50)))
    = Some (sample_props 50) ∧
  [sample_array] !! 0%nat = Some sample_array ∧
  arr_data sample_array !! 1%nat = Some (-1000)%Q ∧
  arr_data sample_array !! 0%nat = Some 500%Q ∧
  ((-1000)%Q <= 500%Q)%Q ∧
  ∃ r h' a' y z,
    window_run CTWindowNeg15To115Normalization
      (sample_self (Some (sample_props 50))) 0%nat None [sample_array] = (Ok r, h') ∧
    h' !! r = Some a' ∧
    arr_data a' !! 1%nat = Some y ∧ arr_data a' !! 0%nat = Some z ∧ (y <= z)%Q.
Proof.
  assert ((-1000)%Q <= 500%Q)%Q as Hle by (unfold Qle; simpl; lia).
  split; [reflexivity|]. split; [reflexivity|]. split; [reflexivity|].
  split; [reflexivity|]. split; [exact Hle|].
  apply (X10_run_is_monotone CTWindowNeg15To115Normalization
           (sample_self (Some (sample_props 50))) (sample_props 50)
           [sample_array] 0%nat sample_array None 1%nat 0%nat _ _
           eq_refl eq_refl eq_refl eq_refl Hle).
Defined.

Lemma X11_synthesized_twin_of_fixed_class_witness :
  (∀ c, CTWindowNeg100To200Normalization ≠ SynthesizedWindow c) ∧
  reachable ascii_fold ascii_decimal initial_state ∧
  intensityproperties (sample_self (Some (sample_props 50)))
    = Some (sample_props 50) ∧
  [sample_array] !! 0%nat = Some sample_array ∧
  ∃ d st',
    get_normalization_scheme ascii_fold ascii_decimal (ct_to_name (-100) 200)
      initial_state = (Ok (Synthesized d), st') ∧
    class_name d = py "CTWindowNeg100To200Normalization".
Proof.
  assert (∀ c, CTWindowNeg100To200Normalization ≠ SynthesizedWindow c) as Hk
    by (intros c; discriminate).
  assert (reachable ascii_fold ascii_decimal initial_state) as Hr
    by (exists []; reflexivity).
  split; [exact Hk|]. split; [exact Hr|]. split; [reflexivity|].
  split; [reflexivity|].
  destruct (X11_synthesized_twin_of_fixed_class ascii_fold ascii_decimal
              CTWindowNeg100To200Normalization initial_state
              (sample_self (Some (sample_props 50))) (sample_props 50)
              [sample_array] 0%nat sample_array None Hk Hr eq_refl eq_refl)
    as (d & st' & _ & _ & _ & _ & _ & Hcall & Hname & _).
  exists d, st'. split; [exact Hcall|exact Hname].
Defined.



Lemma X14_second_run_on_same_input_witness :
  intensityproperties (sample_self (Some (sample_props 50)))
    = Some (sample_props 50) ∧
  [sample_array] !! 0%nat = Some sample_array ∧
  arr_dtype sample_array
    = Floating (target_dtype (sample_self (Some (sample_props 50)))) ∧
  ∃ r1 h1 r2 h2,
    window_run CTWindowNeg15To115Normalization
      (sample_self (Some (sample_props 50))) 0%nat None [sample_array] = (Ok r1, h1) ∧
    window_run CTWindowNeg15To115Normalization
      (sample_self (Some (sample_props 50))) 0%nat None h1 = (Ok r2, h2).
Proof.
  split; [reflexivity|]. split; [reflexivity|]. split; [reflexivity|].
  destruct (X14_second_run_on_same_input CTWindowNeg15To115Normalization
              (sample_self (Some (sample_props 50))) (sample_props 50)
              [sample_array] 0%nat sample_array None eq_refl eq_refl eq_refl)
    as (r1 & h1 & r2 & h2 & _ & _ & H1 & H2 & _).
  exists r1, h1, r2, h2. split; [exact H1|exact H2].
Defined.
